(** * SAS query parameters and the long-running-operation dispatcher

    A shallow embedding of

    - [sdk/tables/data-tables/src/sas/sasQueryParameters.ts]
      (class [SasQueryParameters]: constructor, [ipRange] getter,
      [toString], [tryAppendQueryParameter]), and
    - [sdk/loadtesting/load-testing-rest/src/pollingHelper.ts]
      ([getLongRunningPoller], [isFileUpload], [isTestRunCreation]),

    together with the properties the specification states about them.

    Strings are [String.string]: a JavaScript string is represented by the
    bytes of its UTF-8 encoding, so that [encodeURIComponent] is a map over
    bytes.  Strings holding a lone surrogate (on which the built-in raises
    [URIError]) have no UTF-8 encoding and are outside the model.
    [undefined] is [None]. *)

From Stdlib Require Import String Ascii List Bool Arith ZArith Lia.
From Corelib Require PrimFloat.
Import ListNotations.
Open Scope string_scope.

(* ================================================================== *)
(** ** JavaScript values and built-ins used by the two files *)

(** How a call ends: with a value, or with a thrown [Error] and its message. *)
Inductive completion (A : Type) : Type :=
| Normal (a : A)
| Throw (message : string).
Arguments Normal {A} a.
Arguments Throw {A} message.

Definition completion_map {A B : Type} (f : A -> B) (c : completion A)
  : completion B :=
  match c with
  | Normal a => Normal (f a)
  | Throw m => Throw m
  end.

(** [!value] for a [string | undefined]: [undefined] and [""] are falsy. *)
Definition falsy (value : option string) : bool :=
  match value with
  | None => true
  | Some v => v =? ""
  end.

(** [opts = {}] style defaults: [x === undefined ? d : x]. *)
Definition or_default {A : Type} (d : A) (x : option A) : A :=
  match x with
  | Some a => a
  | None => d
  end.

(** The characters [encodeURIComponent] leaves alone:
    [A-Z a-z 0-9 - _ . ! ~ * ' ( )]. *)
Definition uriUnescaped (c : ascii) : bool :=
  let n := nat_of_ascii c in
  ((65 <=? n)%nat && (n <=? 90)%nat) || ((97 <=? n)%nat && (n <=? 122)%nat)
  || ((48 <=? n)%nat && (n <=? 57)%nat)
  || existsb (Ascii.eqb c) ["-"; "_"; "."; "!"; "~"; "*"; "'"; "("; ")"]%char.

Definition hexDigit (n : nat) : ascii :=
  match get n "0123456789ABCDEF" with
  | Some d => d
  | None => "0"%char
  end.

(** One byte as [%XX], upper-case hexadecimal. *)
Definition percentEncode (c : ascii) : string :=
  let n := nat_of_ascii c in
  String "%" (String (hexDigit (n / 16)) (String (hexDigit (n mod 16)) "")).

(** What [encodeURIComponent] writes for one byte. *)
Definition encodeChar (c : ascii) : string :=
  if uriUnescaped c then String c "" else percentEncode c.

Fixpoint encodeURIComponent (s : string) : string :=
  match s with
  | "" => ""
  | String c rest =>
      if uriUnescaped c then String c (encodeURIComponent rest)
      else percentEncode c ++ encodeURIComponent rest
  end.

(** [s.includes(sub)]: [sub] occurs in [s] at some position. *)
Fixpoint includes (s sub : string) : bool :=
  if prefix sub s then true
  else match s with
       | "" => false
       | String _ rest => includes rest sub
       end.

(** [queries.join(sep)] is [String.concat sep queries]. *)
Definition join (sep : string) (l : list string) : string :=
  String.concat sep l.

(* ================================================================== *)
(** ** Collaborators of [sasQueryParameters.ts] that are not in the sources *)

(** Modelled from the spec: the type [SasIPRange] of [sasIPRange.ts], "a
    start/end pair of IP-address strings" whose end may be absent. *)
Record SasIPRange : Type := { start : string; end_ : option string }.

(** Modelled from the spec: [ipRangeToString] of [sasIPRange.ts].  "If end is
    absent or equal to start, emit only the start address; otherwise emit
    start-end joined by a literal hyphen.  No validation of IP address syntax
    is performed." *)
Definition ipRangeToString (ipRange : SasIPRange) : string :=
  match end_ ipRange with
  | None => start ipRange
  | Some e => if e =? start ipRange then start ipRange
              else start ipRange ++ "-" ++ e
  end.

(** A [Date] is its time value: milliseconds since 1970-01-01T00:00:00Z.
    A [Date] object is truthy whatever it holds; the invalid date (time
    value [NaN]) is outside the model. *)
Definition Date : Type := Z.

Definition digit (n : Z) : ascii := ascii_of_nat (48 + Z.to_nat (n mod 10)).

Definition pad2 (n : Z) : string :=
  String (digit (n / 10)) (String (digit n) "").

Definition pad4 (n : Z) : string := pad2 (n / 100) ++ pad2 n.

Definition pad6 (n : Z) : string := pad2 (n / 10000) ++ pad4 n.

(** Proleptic Gregorian (year, month, day) of a day number counted from
    1970-01-01. *)
Definition civil_from_days (days : Z) : Z * Z * Z :=
  let z := (days + 719468)%Z in
  let era := (z / 146097)%Z in
  let doe := (z mod 146097)%Z in
  let yoe := ((doe - doe / 1460 + doe / 36524 - doe / 146096) / 365)%Z in
  let doy := (doe - (365 * yoe + yoe / 4 - yoe / 100))%Z in
  let mp := ((5 * doy + 2) / 153)%Z in
  let d := (doy - (153 * mp + 2) / 5 + 1)%Z in
  let m := if (mp <? 10)%Z then (mp + 3)%Z else (mp - 9)%Z in
  let y := (yoe + era * 400)%Z in
  (if (m <=? 2)%Z then (y + 1)%Z else y, m, d).

Definition isoYear (y : Z) : string :=
  if ((0 <=? y) && (y <=? 9999))%Z then pad4 y
  else if (y <? 0)%Z then "-" ++ pad6 (- y)
  else "+" ++ pad6 y.

(** Modelled from the spec: [truncatedISO8061Date(date, false)] of
    [utils/truncateISO8061Date.ts], the "truncated ISO-8601 encoder
    (date-time truncated to whole seconds, no fractional component)":
    [YYYY-MM-DDTHH:mm:ssZ] in UTC.  The source only calls it with
    [withMilliseconds = false], which is the mode modelled. *)
Definition truncatedISO8061Date (date : Date) : string :=
  let secs := (date / 1000)%Z in
  let '(y, m, d) := civil_from_days (secs / 86400) in
  let sod := (secs mod 86400)%Z in
  (isoYear y ++ "-" ++ pad2 m ++ "-" ++ pad2 d ++ "T"
   ++ pad2 (sod / 3600) ++ ":" ++ pad2 (sod / 60 mod 60) ++ ":"
   ++ pad2 (sod mod 60)) ++ "Z".

(** [SasProtocol = "https" | "https,http"]. *)
Inductive SasProtocol : Type := Https | HttpsAndHttp.

Definition protocolString (p : SasProtocol) : string :=
  match p with
  | Https => "https"
  | HttpsAndHttp => "https,http"
  end.

(** Modelled from the spec: the type [UserDelegationKey] of [models.ts],
    with the six properties the constructor reads ("signed object id, signed
    tenant id, signed key start/expiry, signed key service, signed key
    version"). *)
Module UserDelegationKey.
Record t : Type := mk {
  signedObjectId : string;
  signedTenantId : string;
  signedStartsOn : Date;
  signedExpiresOn : Date;
  signedService : string;
  signedVersion : string
}.
End UserDelegationKey.

(* ================================================================== *)
(** ** [SasQueryParametersOptions] and [SasQueryParameters] *)

(** The interface [SasQueryParametersOptions]. *)
Module Options.
Record t : Type := mk {
  permissions : option string;
  tableName : option string;
  services : option string;
  resourceTypes : option string;
  protocol : option SasProtocol;
  startsOn : option Date;
  expiresOn : option Date;
  ipRange : option SasIPRange;
  identifier : option string;
  resource : option string;
  userDelegationKey : option UserDelegationKey.t;
  preauthorizedAgentObjectId : option string;
  correlationId : option string;
  startPartitionKey : option string;
  startRowKey : option string;
  endPartitionKey : option string;
  endRowKey : option string
}.

(** The default argument [{}]. *)
Definition empty : t :=
  mk None None None None None None None None None None None None None None
     None None None.
End Options.

(** The fields of the class, in declaration order.  [version] and
    [signature] are annotated [string]; the annotation is erased when the
    code runs and the constructor stores its arguments as they come, so the
    fields hold a [string | undefined] like the others. *)
Record SasQueryParameters : Type := {
  version : option string;
  tableName : option string;
  protocol : option SasProtocol;
  startsOn : option Date;
  expiresOn : option Date;
  permissions : option string;
  services : option string;
  resourceTypes : option string;
  identifier : option string;
  signature : option string;
  ipRangeInner : option SasIPRange;
  signedOid : option string;
  signedTenantId : option string;
  signedStartsOn : option Date;
  signedExpiresOn : option Date;
  signedService : option string;
  signedVersion : option string;
  preauthorizedAgentObjectId : option string;
  correlationId : option string;
  startPartitionKey : option string;
  startRowKey : option string;
  endPartitionKey : option string;
  endRowKey : option string
}.

(** The getter [ipRange]: a copy of the inner range, or [undefined]. *)
Definition ipRange (this : SasQueryParameters) : option SasIPRange :=
  match ipRangeInner this with
  | Some inner => Some {| end_ := end_ inner; start := start inner |}
  | None => None
  end.

(** [new SasQueryParameters(version, signature, options = {})].  The body is
    a sequence of assignments; it has no [throw].  [None] for [version] or
    [signature] is a call that leaves the argument out (or passes
    [undefined]); [None] for [options] takes the default [{}]. *)
Definition constructor (version signature : option string)
    (options : option Options.t)
  : completion SasQueryParameters :=
  let options := or_default Options.empty options in
  let udk := Options.userDelegationKey options in
  Normal
    {| version := version;
       signature := signature;
       permissions := Options.permissions options;
       services := Options.services options;
       resourceTypes := Options.resourceTypes options;
       protocol := Options.protocol options;
       startsOn := Options.startsOn options;
       expiresOn := Options.expiresOn options;
       ipRangeInner := Options.ipRange options;
       identifier := Options.identifier options;
       tableName := Options.tableName options;
       endPartitionKey := Options.endPartitionKey options;
       endRowKey := Options.endRowKey options;
       startPartitionKey := Options.startPartitionKey options;
       startRowKey := Options.startRowKey options;
       signedOid := option_map UserDelegationKey.signedObjectId udk;
       signedTenantId := option_map UserDelegationKey.signedTenantId udk;
       signedStartsOn := option_map UserDelegationKey.signedStartsOn udk;
       signedExpiresOn := option_map UserDelegationKey.signedExpiresOn udk;
       signedService := option_map UserDelegationKey.signedService udk;
       signedVersion := option_map UserDelegationKey.signedVersion udk;
       preauthorizedAgentObjectId :=
         match udk with
         | Some _ => Options.preauthorizedAgentObjectId options
         | None => None
         end;
       correlationId :=
         match udk with
         | Some _ => Options.correlationId options
         | None => None
         end |}.

(* ================================================================== *)
(** ** [toString] and [tryAppendQueryParameter] *)

(** A method body runs against its receiver [this] and the local array
    [queries] that [toString] allocates and hands to
    [tryAppendQueryParameter]; the array is the only thing written. *)
Record Frame : Type := { this : SasQueryParameters; queries : list string }.

Definition Method (A : Type) : Type := Frame -> A * Frame.

Definition ret {A : Type} (a : A) : Method A := fun fr => (a, fr).

Definition bind {A B : Type} (m : Method A) (k : A -> Method B) : Method B :=
  fun fr => let '(a, fr') := m fr in k a fr'.

Notation "x <- m ;; k" := (bind m (fun x => k))
  (at level 61, m at next level, right associativity).
Notation "m ;;; k" := (bind m (fun _ => k))
  (at level 61, right associativity).

(** [this.f]. *)
Definition read {A : Type} (f : SasQueryParameters -> A) : Method A :=
  fun fr => (f (this fr), fr).

(** [queries.push(q)]. *)
Definition push (q : string) : Method unit :=
  fun fr => (tt, {| this := this fr; queries := queries fr ++ [q] |}).

(** [for (const x of l) body(x)]. *)
Fixpoint for_of {A : Type} (l : list A) (body : A -> Method unit)
  : Method unit :=
  match l with
  | [] => ret tt
  | x :: rest => body x ;;; for_of rest body
  end.

Definition tryAppendQueryParameter (key : string) (value : option string)
  : Method unit :=
  match value with
  | None => ret tt
  | Some value =>
      if value =? "" then ret tt
      else
        let key := encodeURIComponent key in
        let value := encodeURIComponent value in
        if (0 <? String.length key)%nat && (0 <? String.length value)%nat
        then push (key ++ "=" ++ value)
        else ret tt
  end.

(** The array literal [params] of [toString]. *)
Definition params : list string :=
  [ "sv"; "ss"; "srt"; "spr"; "st"; "se"; "sip"; "si"; "skoid"; "sktid";
    "skt"; "ske"; "sks"; "skv"; "sr"; "sp"; "sig"; "rscc"; "rscd"; "rsce";
    "rscl"; "rsct"; "saoid"; "scid"; "tn"; "srk"; "spk"; "epk"; "erk" ].

(** The [switch (param)] of the loop body: one [case] per line, in the order
    of the source; a [param] with no [case] falls through. *)
Definition toString_case (param : string) : Method unit :=
  if param =? "sv" then
    v <- read version ;; tryAppendQueryParameter param v
  else if param =? "ss" then
    v <- read services ;; tryAppendQueryParameter param v
  else if param =? "srt" then
    v <- read resourceTypes ;; tryAppendQueryParameter param v
  else if param =? "spr" then
    v <- read protocol ;;
    tryAppendQueryParameter param (option_map protocolString v)
  else if param =? "st" then
    v <- read startsOn ;;
    tryAppendQueryParameter param (option_map truncatedISO8061Date v)
  else if param =? "se" then
    v <- read expiresOn ;;
    tryAppendQueryParameter param (option_map truncatedISO8061Date v)
  else if param =? "sip" then
    v <- read ipRange ;;
    tryAppendQueryParameter param (option_map ipRangeToString v)
  else if param =? "si" then
    v <- read identifier ;; tryAppendQueryParameter param v
  else if param =? "skoid" then
    v <- read signedOid ;; tryAppendQueryParameter param v
  else if param =? "sktid" then
    v <- read signedTenantId ;; tryAppendQueryParameter param v
  else if param =? "skt" then
    v <- read signedStartsOn ;;
    tryAppendQueryParameter param (option_map truncatedISO8061Date v)
  else if param =? "ske" then
    v <- read signedExpiresOn ;;
    tryAppendQueryParameter param (option_map truncatedISO8061Date v)
  else if param =? "sks" then
    v <- read signedService ;; tryAppendQueryParameter param v
  else if param =? "skv" then
    v <- read signedVersion ;; tryAppendQueryParameter param v
  else if param =? "sp" then
    v <- read permissions ;; tryAppendQueryParameter param v
  else if param =? "sig" then
    v <- read signature ;; tryAppendQueryParameter param v
  else if param =? "saoid" then
    v <- read preauthorizedAgentObjectId ;; tryAppendQueryParameter param v
  else if param =? "scid" then
    v <- read correlationId ;; tryAppendQueryParameter param v
  else if param =? "tn" then
    v <- read tableName ;; tryAppendQueryParameter param v
  else if param =? "spk" then
    v <- read startPartitionKey ;; tryAppendQueryParameter param v
  else if param =? "srk" then
    v <- read startRowKey ;; tryAppendQueryParameter param v
  else if param =? "epk" then
    v <- read endPartitionKey ;; tryAppendQueryParameter param v
  else if param =? "erk" then
    v <- read endRowKey ;; tryAppendQueryParameter param v
  else ret tt.

(** The statements of [toString] after [const queries = []]. *)
Definition toString_body : Method string :=
  for_of params toString_case ;;;
  fun fr => (join "&" (queries fr), fr).

(** A call [p.toString()]: the body runs in a frame with a fresh, empty
    [queries]. *)
Definition call_toString (p : SasQueryParameters) : string * Frame :=
  toString_body {| this := p; queries := [] |}.

Definition toString (p : SasQueryParameters) : string :=
  fst (call_toString p).

(* ================================================================== *)
(** ** [pollingHelper.ts] *)

(** The part of a response the dispatcher reads: [response.request.url]. *)
Record PipelineRequest : Type := { url : string }.

Record HttpResponse : Type := {
  request : PipelineRequest;
  status : string
}.

Definition isFileUpload (response : HttpResponse) : bool :=
  includes (url (request response)) "/files/".

Definition isTestRunCreation (response : HttpResponse) : bool :=
  includes (url (request response)) "/test-runs/".

Section PollingHelper.
(** The client, the two poller types of [models.ts] and the two poller
    factories ([getFileValidationPoller.ts],
    [getTestRunCompletionPoller.ts]) are not in the sources; the
    dispatcher is stated for any of them.  A rejected promise is a
    [Throw]. *)
Variable AzureLoadTestingClient : Type.
Variables FileUploadAndValidatePoller TestRunCompletionPoller : Type.
Variable getFileValidationPoller :
  AzureLoadTestingClient -> HttpResponse ->
  completion FileUploadAndValidatePoller.
Variable getTestRunCompletionPoller :
  AzureLoadTestingClient -> HttpResponse ->
  completion TestRunCompletionPoller.

Definition getLongRunningPoller (client : AzureLoadTestingClient)
    (initialResponse : HttpResponse)
  : completion (TestRunCompletionPoller + FileUploadAndValidatePoller) :=
  if isFileUpload initialResponse then
    completion_map inr (getFileValidationPoller client initialResponse)
  else if isTestRunCreation initialResponse then
    completion_map inl (getTestRunCompletionPoller client initialResponse)
  else Throw "The Operation is not a long running operation.".
End PollingHelper.

Arguments getLongRunningPoller {_ _ _} _ _ _ _.

(** Responses for the three request paths of section 8. *)
Definition response_to (path : string) : HttpResponse :=
  {| request := {| url := "https://host.example/tests/t1" ++ path |};
     status := "201" |}.

(* ================================================================== *)
(** ** Reading a query string back *)

(** [s.split(sep)] for a one-character separator. *)
Fixpoint split_on (sep : ascii) (s : string) : list string :=
  match s with
  | "" => [""]
  | String c rest =>
      if Ascii.eqb c sep then "" :: split_on sep rest
      else match split_on sep rest with
           | [] => [String c ""]
           | seg :: segs => String c seg :: segs
           end
  end.

(** What stands before and after the first [sep] of [s]. *)
Fixpoint cut (sep : ascii) (s : string) : string * string :=
  match s with
  | "" => ("", "")
  | String c rest =>
      if Ascii.eqb c sep then ("", rest)
      else let '(a, b) := cut sep rest in (String c a, b)
  end.

(** The key/value pairs of a query string, in the order they stand in it. *)
Definition parse_query (s : string) : list (string * string) :=
  if s =? "" then [] else map (cut "=") (split_on "&" s).

Definition query_keys (s : string) : list string := map fst (parse_query s).

Fixpoint occurs (c : ascii) (s : string) : bool :=
  match s with
  | "" => false
  | String c' rest => Ascii.eqb c' c || occurs c rest
  end.

(** The last character of [s] is [c]. *)
Fixpoint ends_with (c : ascii) (s : string) : bool :=
  match s with
  | "" => false
  | String c' "" => Ascii.eqb c' c
  | String _ rest => ends_with c rest
  end.

(** [l1] is [l2] with some elements left out. *)
Inductive subsequence {A : Type} : list A -> list A -> Prop :=
| subsequence_nil : subsequence [] []
| subsequence_skip x l1 l2 : subsequence l1 l2 -> subsequence l1 (x :: l2)
| subsequence_keep x l1 l2 :
    subsequence l1 l2 -> subsequence (x :: l1) (x :: l2).

(* ================================================================== *)
(** ** The specification's reading of [toString] *)

(** Section 4.2, the fixed emission sequence. *)
Definition canonical_order : list string :=
  [ "sv"; "ss"; "srt"; "spr"; "st"; "se"; "sip"; "si"; "skoid"; "sktid";
    "skt"; "ske"; "sks"; "skv"; "sr"; "sp"; "sig"; "rscc"; "rscd"; "rsce";
    "rscl"; "rsct"; "saoid"; "scid"; "tn"; "srk"; "spk"; "epk"; "erk" ].

(** The value each key stands for, before encoding: "an ordered sequence of
    (key, value-or-absent) pairs".  The reserved slots have no value. *)
Definition canonical_fields (p : SasQueryParameters)
  : list (string * option string) :=
  [ ("sv", version p);
    ("ss", services p);
    ("srt", resourceTypes p);
    ("spr", option_map protocolString (protocol p));
    ("st", option_map truncatedISO8061Date (startsOn p));
    ("se", option_map truncatedISO8061Date (expiresOn p));
    ("sip", option_map ipRangeToString (ipRange p));
    ("si", identifier p);
    ("skoid", signedOid p);
    ("sktid", signedTenantId p);
    ("skt", option_map truncatedISO8061Date (signedStartsOn p));
    ("ske", option_map truncatedISO8061Date (signedExpiresOn p));
    ("sks", signedService p);
    ("skv", signedVersion p);
    ("sr", None);
    ("sp", permissions p);
    ("sig", signature p);
    ("rscc", None);
    ("rscd", None);
    ("rsce", None);
    ("rscl", None);
    ("rsct", None);
    ("saoid", preauthorizedAgentObjectId p);
    ("scid", correlationId p);
    ("tn", tableName p);
    ("srk", startRowKey p);
    ("spk", startPartitionKey p);
    ("epk", endPartitionKey p);
    ("erk", endRowKey p) ].

(** A field is present when its value is neither [undefined] nor [""]. *)
Definition present (field : string * option string) : bool :=
  negb (falsy (snd field)).

(** "Filtered for presence": the pair a present field is written as, key
    and value percent-encoded. *)
Definition encoded_pair (field : string * option string) : string * string :=
  (encodeURIComponent (fst field),
   encodeURIComponent (or_default "" (snd field))).

Definition pair_string (kv : string * string) : string :=
  fst kv ++ "=" ++ snd kv.

Definition emitted (p : SasQueryParameters) : list (string * string) :=
  map encoded_pair (filter present (canonical_fields p)).

(** The third argument the [switch] of [toString] passes for [param]; a
    [param] without a [case] has none. *)
Definition field_of (p : SasQueryParameters) (param : string)
  : option string :=
  if param =? "sv" then version p
  else if param =? "ss" then services p
  else if param =? "srt" then resourceTypes p
  else if param =? "spr" then option_map protocolString (protocol p)
  else if param =? "st" then option_map truncatedISO8061Date (startsOn p)
  else if param =? "se" then option_map truncatedISO8061Date (expiresOn p)
  else if param =? "sip" then option_map ipRangeToString (ipRange p)
  else if param =? "si" then identifier p
  else if param =? "skoid" then signedOid p
  else if param =? "sktid" then signedTenantId p
  else if param =? "skt" then
    option_map truncatedISO8061Date (signedStartsOn p)
  else if param =? "ske" then
    option_map truncatedISO8061Date (signedExpiresOn p)
  else if param =? "sks" then signedService p
  else if param =? "skv" then signedVersion p
  else if param =? "sp" then permissions p
  else if param =? "sig" then signature p
  else if param =? "saoid" then preauthorizedAgentObjectId p
  else if param =? "scid" then correlationId p
  else if param =? "tn" then tableName p
  else if param =? "spk" then startPartitionKey p
  else if param =? "srk" then startRowKey p
  else if param =? "epk" then endPartitionKey p
  else if param =? "erk" then endRowKey p
  else None.

(** What one turn of the loop appends to [queries]. *)
Definition appended (p : SasQueryParameters) (param : string) : list string :=
  if present (param, field_of p param)
  then [pair_string (encoded_pair (param, field_of p param))]
  else [].

(** [sub] stands somewhere in [s]. *)
Definition contains (s sub : string) : Prop :=
  exists before rest, s = before ++ sub ++ rest.

(** The keys of the delegation-key block, and the value each one is given
    by a delegation key. *)
Definition delegation_keys : list string :=
  ["skoid"; "sktid"; "skt"; "ske"; "sks"; "skv"].

Definition delegation_values (key : UserDelegationKey.t)
  : list (string * string) :=
  [ ("skoid", UserDelegationKey.signedObjectId key);
    ("sktid", UserDelegationKey.signedTenantId key);
    ("skt", truncatedISO8061Date (UserDelegationKey.signedStartsOn key));
    ("ske", truncatedISO8061Date (UserDelegationKey.signedExpiresOn key));
    ("sks", UserDelegationKey.signedService key);
    ("skv", UserDelegationKey.signedVersion key) ].

(** The options of the scenario of section 8: [tableName: "T1"],
    [permissions: "r"], [expiresOn: 2024-01-01T00:00:00Z] (time value
    1704067200000). *)
Definition scenario_options : Options.t :=
  Options.mk (Some "r") (Some "T1") None None None None
    (Some 1704067200000%Z) None None None None None None None None None None.

(** A delegation key whose [signedObjectId] is the empty string, and an
    options bag that carries it. *)
Definition key_without_object_id : UserDelegationKey.t :=
  UserDelegationKey.mk "" "72f988bf" 1704067200000%Z 1704153600000%Z
    "t" "2023-01-01".

Definition options_with_key (key : UserDelegationKey.t) : Options.t :=
  Options.mk (Some "r") (Some "T1") None None None None None None None None
    (Some key) None None None None None None.

(** Options with the agent and correlation ids but no delegation key. *)
Definition options_ids_without_key : Options.t :=
  Options.mk (Some "r") (Some "T1") None None None None None None None None
    None (Some "agent-oid") (Some "corr-id") None None None None.



(** Membership in a list written out. *)
Ltac in_list := simpl; repeat (try (left; reflexivity); right).

(* ------------------------------------------------------------------ *)
(** Further readings of the serializer. *)

(** The [param]s that have a [case] in the [switch], in the order of the
    array, and those that have none. *)
Definition cased_keys : list string :=
  [ "sv"; "ss"; "srt"; "spr"; "st"; "se"; "sip"; "si"; "skoid"; "sktid";
    "skt"; "ske"; "sks"; "skv"; "sp"; "sig"; "saoid"; "scid"; "tn"; "srk";
    "spk"; "epk"; "erk" ].

Definition uncased_keys : list string :=
  ["sr"; "rscc"; "rscd"; "rsce"; "rscl"; "rsct"].

(** The characters a query string written by [toString] is made of: the
    ones [encodeURIComponent] leaves alone, and [%], [&], [=]. *)
Definition query_char (c : ascii) : bool :=
  uriUnescaped c || existsb (Ascii.eqb c) ["%"; "&"; "="]%char.

Fixpoint string_forallb (f : ascii -> bool) (s : string) : bool :=
  match s with
  | "" => true
  | String c rest => f c && string_forallb f rest
  end.

Fixpoint nodupb (l : list string) : bool :=
  match l with
  | [] => true
  | x :: rest => negb (existsb (String.eqb x) rest) && nodupb rest
  end.

(** The value of a hexadecimal digit. *)
Definition hexValue (c : ascii) : option nat :=
  let n := nat_of_ascii c in
  if (48 <=? n)%nat && (n <=? 57)%nat then Some (n - 48)
  else if (65 <=? n)%nat && (n <=? 70)%nat then Some (n - 55)
  else if (97 <=? n)%nat && (n <=? 102)%nat then Some (n - 87)
  else None.

(** Reading [%XX] escapes back into bytes; [None] for a [%] that is not
    followed by two hexadecimal digits. *)
Fixpoint percentDecode (s : string) : option string :=
  match s with
  | "" => Some ""
  | String c rest =>
      if Ascii.eqb c "%" then
        match rest with
        | String h (String l rest') =>
            match hexValue h, hexValue l with
            | Some a, Some b =>
                option_map (String (ascii_of_nat (16 * a + b)))
                           (percentDecode rest')
            | _, _ => None
            end
        | _ => None
        end
      else option_map (String c) (percentDecode rest)
  end.

(** [{...options, resource}]: the options with another [resource]. *)
Definition with_resource (o : Options.t) (resource : option string)
  : Options.t :=
  Options.mk (Options.permissions o) (Options.tableName o)
    (Options.services o) (Options.resourceTypes o) (Options.protocol o)
    (Options.startsOn o) (Options.expiresOn o) (Options.ipRange o)
    (Options.identifier o) resource (Options.userDelegationKey o)
    (Options.preauthorizedAgentObjectId o) (Options.correlationId o)
    (Options.startPartitionKey o) (Options.startRowKey o)
    (Options.endPartitionKey o) (Options.endRowKey o).

(** An instance with every field present. *)
Definition full_instance : SasQueryParameters :=
  {| version := Some "2023-01-01"; tableName := Some "T 1";
     protocol := Some HttpsAndHttp; startsOn := Some 0%Z;
     expiresOn := Some 1704067200000%Z; permissions := Some "raud";
     services := Some "t"; resourceTypes := Some "sco";
     identifier := Some "policy#1"; signature := Some "a+b/c=";
     ipRangeInner := Some {| start := "10.0.0.1"; end_ := Some "10.0.0.5" |};
     signedOid := Some "oid"; signedTenantId := Some "tid";
     signedStartsOn := Some 0%Z; signedExpiresOn := Some 86400000%Z;
     signedService := Some "t"; signedVersion := Some "2023-01-01";
     preauthorizedAgentObjectId := Some "agent";
     correlationId := Some "corr"; startPartitionKey := Some "p&1";
     startRowKey := Some "r=1"; endPartitionKey := Some "p 9";
     endRowKey := Some "r%9" |}.

(* ================================================================== *)
(** ** [applyUpdateForResourceGroup.ts] *)

(** A JavaScript number is an IEEE 754 double.  As a condition it is
    falsy when it is [+0], [-0] or [NaN], and truthy otherwise (the
    infinities included). *)
Definition number_truthy (n : PrimFloat.float) : bool :=
  negb (PrimFloat.is_nan n || PrimFloat.is_zero n).

(** [PageSettings] of the paging library: both properties are optional,
    and [maxPageSize] is a number. *)
Record PageSettings : Type := {
  continuationToken : option string;
  maxPageSize : option PrimFloat.float
}.

(** The literal part of an operation specification. *)
Record OperationSpec : Type := { path : string; httpMethod : string }.

Definition listOperationSpec : OperationSpec :=
  {| path := "/subscriptions/{subscriptionId}/resourceGroups/{resourceGroupName}/providers/Microsoft.Maintenance/applyUpdates";
     httpMethod := "GET" |}.

(** An async generator is represented by what a consumer that iterates it
    to the end receives: the values yielded, in order, and the error it
    ends with, if it ends with one. *)
Record Drained (Y : Type) : Type := {
  yielded : list Y;
  thrown : option string
}.
Arguments yielded {Y} _.
Arguments thrown {Y} _.

(** The class [ApplyUpdateForResourceGroupImpl]. *)
Module ApplyUpdateForResourceGroupImpl.
Section Operations.
(** The element type [ApplyUpdate], the optional parameters and the
    service behind the client are not in the sources.  A request runs
    against a [World] (the service and the pipeline) and leaves a new
    one; a rejected promise is a [Throw]. *)
Variables ApplyUpdate OptionalParams World : Type.

(** The response body [{ value?: ApplyUpdate[] }]. *)
Record ListResponse : Type := { value : option (list ApplyUpdate) }.

(** The operation arguments [{ resourceGroupName, options }]. *)
Record OperationArguments : Type := {
  resourceGroupName : string;
  options : option OptionalParams
}.

(** [this.client.sendOperationRequest]. *)
Variable sendOperationRequest :
  OperationArguments -> OperationSpec -> World ->
  completion ListResponse * World.

Definition Generator (Y : Type) : Type := World -> Drained Y * World.

Definition _list (resourceGroupName : string)
    (options : option OptionalParams)
  : World -> completion ListResponse * World :=
  sendOperationRequest
    {| resourceGroupName := resourceGroupName; options := options |}
    listOperationSpec.

(** [result = await this._list(...); yield result.value || [];] *)
Definition listPagingPage (resourceGroupName : string)
    (options : option OptionalParams) (_settings : option PageSettings)
  : Generator (list ApplyUpdate) :=
  fun w =>
    match _list resourceGroupName options w with
    | (Normal result, w') =>
        ({| yielded := [or_default [] (value result)]; thrown := None |}, w')
    | (Throw e, w') => ({| yielded := []; thrown := Some e |}, w')
    end.

(** [for await (const page of this.listPagingPage(...)) yield* page;] *)
Definition listPagingAll (resourceGroupName : string)
    (options : option OptionalParams)
  : Generator ApplyUpdate :=
  fun w =>
    let '(pages, w') := listPagingPage resourceGroupName options None w in
    ({| yielded := concat (yielded pages); thrown := thrown pages |}, w').

(** The object [list] returns: [next] (here, iterated to the end) and
    [byPage]. *)
Record PagedAsyncIterableIterator : Type := {
  next : Generator ApplyUpdate;
  byPage : option PageSettings -> completion (Generator (list ApplyUpdate))
}.

(** [settings?.maxPageSize] as a condition. *)
Definition maxPageSize_truthy (settings : option PageSettings) : bool :=
  match settings with
  | Some s =>
      match maxPageSize s with
      | Some n => number_truthy n
      | None => false
      end
  | None => false
  end.

Definition list (resourceGroupName : string)
    (options : option OptionalParams)
  : PagedAsyncIterableIterator :=
  let iter := listPagingAll resourceGroupName options in
  {| next := iter;
     byPage := fun settings =>
       if maxPageSize_truthy settings then
         Throw "maxPageSize is not supported by this operation."
       else Normal (listPagingPage resourceGroupName options settings) |}.
End Operations.
End ApplyUpdateForResourceGroupImpl.

Arguments ApplyUpdateForResourceGroupImpl.value {_} _.
Arguments ApplyUpdateForResourceGroupImpl.Build_ListResponse {_} _.
Arguments ApplyUpdateForResourceGroupImpl.next {_ _} _.
Arguments ApplyUpdateForResourceGroupImpl.byPage {_ _} _.
Arguments ApplyUpdateForResourceGroupImpl.list {_ _ _} _ _ _.
Arguments ApplyUpdateForResourceGroupImpl.listPagingPage {_ _ _} _ _ _ _.
Arguments ApplyUpdateForResourceGroupImpl.listPagingAll {_ _ _} _ _ _.

(** A service that answers every request with two records and counts the
    requests, one that answers without a [value], and one that fails. *)
Definition service_two_records
  : ApplyUpdateForResourceGroupImpl.OperationArguments unit ->
    OperationSpec -> nat ->
    completion (ApplyUpdateForResourceGroupImpl.ListResponse string) * nat :=
  fun _ _ n =>
    (Normal (ApplyUpdateForResourceGroupImpl.Build_ListResponse
               (Some ["update-1"; "update-2"])), S n).

Definition service_no_value
  : ApplyUpdateForResourceGroupImpl.OperationArguments unit ->
    OperationSpec -> nat ->
    completion (ApplyUpdateForResourceGroupImpl.ListResponse string) * nat :=
  fun _ _ n =>
    (Normal (ApplyUpdateForResourceGroupImpl.Build_ListResponse None), S n).

(* ================================================================== *)
(** ** Facts about strings *)

Lemma append_eq_empty (a b : string) : a ++ b = "" -> a = "" /\ b = "".
Proof. destruct a; simpl; [auto | discriminate]. Qed.

Lemma occurs_append (c : ascii) (a b : string) :
  occurs c (a ++ b) = occurs c a || occurs c b.
Proof.
  induction a as [|x a IH]; simpl; [reflexivity|].
  now rewrite IH, orb_assoc.
Qed.

Lemma prefix_iff (sub s : string) :
  prefix sub s = true <-> exists rest, s = sub ++ rest.
Proof.
  revert s; induction sub as [|a sub IH]; intros s.
  - destruct s; simpl; split; intros; eauto.
  - destruct s as [|b s]; simpl.
    + split; [discriminate | intros [rest H]; discriminate].
    + destruct (ascii_dec a b) as [->|Hne].
      * rewrite IH. split; intros [rest H]; exists rest.
        -- now subst.
        -- now inversion H.
      * split; [discriminate | intros [rest H]; inversion H; congruence].
Qed.

(** [includes] is the substring relation. *)
Lemma includes_iff (s sub : string) :
  includes s sub = true <-> exists before rest, s = before ++ sub ++ rest.
Proof.
  induction s as [|c s IH].
  - cbn [includes]. destruct (prefix sub "") eqn:Hp.
    + split; [intros _ | reflexivity].
      apply prefix_iff in Hp. destruct Hp as [rest H]. now exists "", rest.
    + split; [discriminate|]. intros [before [rest H]].
      symmetry in H. apply append_eq_empty in H. destruct H as [-> H].
      apply append_eq_empty in H. destruct H as [-> ->].
      simpl in Hp. discriminate.
  - cbn [includes]. destruct (prefix sub (String c s)) eqn:Hp.
    + split; [intros _ | reflexivity].
      apply prefix_iff in Hp. destruct Hp as [rest H]. now exists "", rest.
    + rewrite IH. split.
      * intros [before [rest H]]. exists (String c before), rest.
        simpl. now rewrite H.
      * intros [before [rest H]]. destruct before as [|b before].
        -- simpl in H.
           assert (prefix sub (String c s) = true) as Hp'
             by (apply prefix_iff; now exists rest).
           congruence.
        -- simpl in H. inversion H. now exists before, rest.
Qed.

Lemma includes_false_iff (s sub : string) :
  includes s sub = false <-> ~ exists before rest, s = before ++ sub ++ rest.
Proof.
  rewrite <- includes_iff. destruct (includes s sub); split; intros H;
    congruence || (exfalso; now apply H).
Qed.

(** *** [encodeURIComponent] *)

Lemma encodeURIComponent_cons (c : ascii) (s : string) :
  encodeURIComponent (String c s) = encodeChar c ++ encodeURIComponent s.
Proof. unfold encodeChar. simpl. now destruct (uriUnescaped c). Qed.

Lemma encodeChar_separators (c : ascii) :
  occurs "&" (encodeChar c) = false /\ occurs "=" (encodeChar c) = false.
Proof.
  destruct c as [[] [] [] [] [] [] [] []]; split; vm_compute; reflexivity.
Qed.

Lemma encodeURIComponent_separators (s : string) :
  occurs "&" (encodeURIComponent s) = false
  /\ occurs "=" (encodeURIComponent s) = false.
Proof.
  induction s as [|c s [IH1 IH2]]; [now split|].
  rewrite encodeURIComponent_cons, !occurs_append, IH1, IH2.
  destruct (encodeChar_separators c) as [-> ->]. now split.
Qed.

Lemma encodeChar_nonempty (c : ascii) : encodeChar c <> "".
Proof.
  unfold encodeChar, percentEncode. destruct (uriUnescaped c); discriminate.
Qed.

Lemma encodeURIComponent_empty_iff (s : string) :
  encodeURIComponent s = "" <-> s = "".
Proof.
  split; [|intros ->; reflexivity].
  destruct s as [|c s]; [reflexivity|].
  rewrite encodeURIComponent_cons. intros H.
  apply append_eq_empty in H. destruct H as [H _].
  now apply encodeChar_nonempty in H.
Qed.

Lemma length_pos_iff (s : string) :
  (0 <? String.length s)%nat = negb (s =? "").
Proof. now destruct s. Qed.

(** *** Splitting and joining *)

Lemma split_on_free (sep : ascii) (a : string) :
  occurs sep a = false -> split_on sep a = [a].
Proof.
  induction a as [|c a IH]; simpl; [reflexivity|].
  intros H. apply orb_false_iff in H. destruct H as [Hc Ha].
  now rewrite Hc, IH.
Qed.

Lemma split_on_append (sep : ascii) (a b : string) :
  occurs sep a = false ->
  split_on sep (a ++ String sep b) = a :: split_on sep b.
Proof.
  induction a as [|c a IH]; simpl; intros H.
  - now rewrite Ascii.eqb_refl.
  - apply orb_false_iff in H. destruct H as [Hc Ha].
    now rewrite Hc, IH.
Qed.

Lemma split_on_join (sep : ascii) (l : list string) :
  l <> [] ->
  Forall (fun x => occurs sep x = false) l ->
  split_on sep (join (String sep "") l) = l.
Proof.
  induction l as [|x l IH]; [congruence|]. intros _ Hall.
  inversion Hall as [|? ? Hx Hl]; subst.
  destruct l as [|y l].
  - simpl. now apply split_on_free.
  - change (join (String sep "") (x :: y :: l))
      with (x ++ String sep (join (String sep "") (y :: l))).
    rewrite split_on_append by assumption.
    now rewrite IH.
Qed.

Lemma cut_append (sep : ascii) (k v : string) :
  occurs sep k = false -> cut sep (k ++ String sep v) = (k, v).
Proof.
  induction k as [|c k IH]; simpl; intros H.
  - now rewrite Ascii.eqb_refl.
  - apply orb_false_iff in H. destruct H as [Hc Hk].
    now rewrite Hc, IH.
Qed.

Lemma join_empty_iff (sep : string) (l : list string) :
  Forall (fun x => x <> "") l -> (join sep l = "" <-> l = []).
Proof.
  intros Hall. split; [|intros ->; reflexivity].
  destruct l as [|x l]; [reflexivity|]. intros H. exfalso.
  inversion Hall as [|? ? Hx _]; subst. apply Hx.
  destruct l; simpl in H; [assumption|].
  now apply append_eq_empty in H.
Qed.

(** An empty segment is what a leading, a trailing or a doubled separator
    leaves behind. *)
Lemma split_on_tail_cons (sep c : ascii) (s : string) :
  In "" (tl (split_on sep s)) -> In "" (tl (split_on sep (String c s))).
Proof.
  simpl. destruct (Ascii.eqb c sep).
  - simpl. destruct (split_on sep s); simpl; auto.
  - destruct (split_on sep s); simpl; auto.
Qed.

Lemma leading_separator (sep : ascii) (s : string) :
  prefix (String sep "") s = true -> In "" (split_on sep s).
Proof.
  intros H. apply prefix_iff in H. destruct H as [rest ->].
  simpl. rewrite Ascii.eqb_refl. now left.
Qed.

Lemma trailing_separator (sep : ascii) (s : string) :
  ends_with sep s = true -> In "" (split_on sep s).
Proof.
  intros H. cut (In "" (tl (split_on sep s))).
  { destruct (split_on sep s); simpl; auto. }
  induction s as [|c s IH]; [discriminate|].
  destruct s as [|c' s].
  - simpl in H. simpl. rewrite H. simpl. now left.
  - apply split_on_tail_cons, IH. exact H.
Qed.

Lemma doubled_separator (sep : ascii) (s : string) :
  includes s (String sep (String sep "")) = true -> In "" (split_on sep s).
Proof.
  intros H. cut (In "" (tl (split_on sep s))).
  { destruct (split_on sep s); simpl; auto. }
  induction s as [|c s IH]; [discriminate|].
  cbn [includes] in H.
  destruct (prefix (String sep (String sep "")) (String c s)) eqn:Hp.
  - apply prefix_iff in Hp. destruct Hp as [rest Hp].
    rewrite Hp. simpl. rewrite !Ascii.eqb_refl. simpl. now left.
  - now apply split_on_tail_cons, IH.
Qed.

Lemma no_stray_separator (sep : ascii) (s : string) :
  ~ In "" (split_on sep s) ->
  prefix (String sep "") s = false
  /\ ends_with sep s = false
  /\ includes s (String sep (String sep "")) = false.
Proof.
  intros H. repeat split.
  - destruct (prefix _ s) eqn:E; [|reflexivity].
    now apply leading_separator in E.
  - destruct (ends_with sep s) eqn:E; [|reflexivity].
    now apply trailing_separator in E.
  - destruct (includes s _) eqn:E; [|reflexivity].
    now apply doubled_separator in E.
Qed.


Lemma parse_query_join (l : list (string * string)) :
  Forall (fun kv => occurs "&" (fst kv) = false
                    /\ occurs "=" (fst kv) = false
                    /\ occurs "&" (snd kv) = false) l ->
  parse_query (join "&" (map pair_string l)) = l.
Proof.
  intros Hall. unfold parse_query.
  destruct l as [|kv l]; [reflexivity|].
  assert (join "&" (map pair_string (kv :: l)) <> "") as Hne.
  { intros H. apply join_empty_iff in H; [discriminate|].
    apply Forall_forall. intros x Hx. apply in_map_iff in Hx.
    destruct Hx as [[k v] [<- _]]. unfold pair_string. simpl.
    intros H'. apply append_eq_empty in H'. destruct H' as [_ H'].
    discriminate. }
  apply String.eqb_neq in Hne. rewrite Hne.
  rewrite split_on_join.
  - rewrite map_map. rewrite <- (map_id (kv :: l)) at 2.
    apply map_ext_in. intros [k v] Hin.
    rewrite Forall_forall in Hall. destruct (Hall _ Hin) as [_ [Hk _]].
    unfold pair_string. simpl in *. now apply cut_append.
  - discriminate.
  - apply Forall_forall. intros x Hx. apply in_map_iff in Hx.
    destruct Hx as [[k v] [<- Hin]].
    rewrite Forall_forall in Hall. destruct (Hall _ Hin) as [Hk [_ Hv]].
    unfold pair_string. simpl in *.
    rewrite occurs_append. simpl. now rewrite Hk, Hv.
Qed.

(* ================================================================== *)
(** ** Running [toString] *)

Lemma tryAppendQueryParameter_run (key : string) (value : option string)
    (fr : Frame) :
  key <> "" ->
  tryAppendQueryParameter key value fr
  = (tt, {| this := this fr;
            queries := queries fr
                       ++ (if present (key, value)
                           then [pair_string (encoded_pair (key, value))]
                           else []) |}).
Proof.
  intros Hkey. unfold tryAppendQueryParameter, present, falsy. simpl.
  destruct value as [v|]; simpl.
  - destruct (v =? "") eqn:Hv; simpl.
    + rewrite app_nil_r. now destruct fr.
    + rewrite !length_pos_iff.
      assert ((encodeURIComponent key =? "") = false) as ->.
      { apply String.eqb_neq. now rewrite encodeURIComponent_empty_iff. }
      assert ((encodeURIComponent v =? "") = false) as ->.
      { apply String.eqb_neq. rewrite encodeURIComponent_empty_iff.
        now apply String.eqb_neq. }
      reflexivity.
  - rewrite app_nil_r. now destruct fr.
Qed.

Lemma toString_case_field (param : string) (fr : Frame) :
  toString_case param fr
  = tryAppendQueryParameter param (field_of (this fr) param) fr.
Proof.
  unfold toString_case, field_of.
  repeat match goal with
         | |- context [param =? ?k] => destruct (param =? k); [reflexivity|]
         end.
  now destruct fr.
Qed.

Lemma toString_case_run (param : string) (fr : Frame) :
  param <> "" ->
  toString_case param fr
  = (tt, {| this := this fr;
            queries := queries fr ++ appended (this fr) param |}).
Proof.
  intros H. rewrite toString_case_field.
  now rewrite tryAppendQueryParameter_run.
Qed.

Lemma for_of_run (l : list string) (fr : Frame) :
  Forall (fun k => k <> "") l ->
  for_of l toString_case fr
  = (tt, {| this := this fr;
            queries := queries fr ++ flat_map (appended (this fr)) l |}).
Proof.
  revert fr. induction l as [|k l IH]; intros fr Hall.
  - simpl. rewrite app_nil_r. now destruct fr.
  - inversion Hall as [|? ? Hk Hl]; subst.
    cbn [for_of]. unfold bind. rewrite toString_case_run by assumption.
    rewrite IH by assumption. simpl. now rewrite <- app_assoc.
Qed.

Lemma params_nonempty : Forall (fun k => k <> "") params.
Proof. unfold params. repeat constructor; discriminate. Qed.

Lemma call_toString_run (p : SasQueryParameters) :
  call_toString p
  = (join "&" (flat_map (appended p) params),
     {| this := p; queries := flat_map (appended p) params |}).
Proof.
  unfold call_toString, toString_body, bind.
  now rewrite (for_of_run params _ params_nonempty).
Qed.

Lemma canonical_fields_params (p : SasQueryParameters) :
  canonical_fields p = map (fun k => (k, field_of p k)) params.
Proof. reflexivity. Qed.

Lemma canonical_fields_keys (p : SasQueryParameters) :
  map fst (canonical_fields p) = canonical_order.
Proof. reflexivity. Qed.

Lemma appended_emitted (p : SasQueryParameters) (l : list string) :
  flat_map (appended p) l
  = map pair_string
      (map encoded_pair
         (filter present (map (fun k => (k, field_of p k)) l))).
Proof.
  induction l as [|k l IH]; [reflexivity|].
  cbn [flat_map map filter]. unfold appended at 1.
  destruct (present (k, field_of p k)); simpl; now rewrite IH.
Qed.

(** [toString] writes the present fields of the table, in the table's
    order. *)
Lemma toString_emitted (p : SasQueryParameters) :
  toString p = join "&" (map pair_string (emitted p)).
Proof.
  unfold toString. rewrite call_toString_run. cbn [fst].
  unfold emitted. now rewrite canonical_fields_params, appended_emitted.
Qed.

Lemma emitted_unfold (p : SasQueryParameters) :
  emitted p = map encoded_pair (filter present (canonical_fields p)).
Proof. reflexivity. Qed.

Lemma encoded_pair_separators (fields : list (string * option string)) :
  Forall (fun kv => occurs "&" (fst kv) = false
                    /\ occurs "=" (fst kv) = false
                    /\ occurs "&" (snd kv) = false)
         (map encoded_pair fields).
Proof.
  apply Forall_forall. intros kv H.
  apply in_map_iff in H. destruct H as [f [<- _]]. unfold encoded_pair. simpl.
  destruct (encodeURIComponent_separators (fst f)) as [-> ->].
  now destruct (encodeURIComponent_separators (or_default "" (snd f)))
    as [-> _].
Qed.

Lemma emitted_separators (p : SasQueryParameters) :
  Forall (fun kv => occurs "&" (fst kv) = false
                    /\ occurs "=" (fst kv) = false
                    /\ occurs "&" (snd kv) = false) (emitted p).
Proof. unfold emitted. apply encoded_pair_separators. Qed.

(** Reading the output back gives the pairs that were written. *)
Lemma parse_toString (p : SasQueryParameters) :
  parse_query (toString p) = emitted p.
Proof.
  rewrite toString_emitted. apply parse_query_join, emitted_separators.
Qed.

Lemma canonical_order_unescaped :
  Forall (fun k => encodeURIComponent k = k) canonical_order.
Proof. unfold canonical_order. repeat constructor. Qed.

Lemma query_keys_toString (p : SasQueryParameters) :
  query_keys (toString p) = map fst (filter present (canonical_fields p)).
Proof.
  unfold query_keys. rewrite parse_toString. unfold emitted.
  rewrite map_map. apply map_ext_in. intros [k v] Hin. simpl.
  apply filter_In in Hin. destruct Hin as [Hin _].
  pose proof canonical_order_unescaped as Hall.
  rewrite Forall_forall in Hall. apply Hall.
  rewrite <- (canonical_fields_keys p). now apply (in_map fst) in Hin.
Qed.

(** A key is in the output exactly when the field it stands for is
    present. *)
Lemma key_emitted_iff (p : SasQueryParameters) (k : string) :
  In k (query_keys (toString p))
  <-> In k params /\ falsy (field_of p k) = false.
Proof.
  rewrite query_keys_toString, canonical_fields_params.
  rewrite in_map_iff. split.
  - intros [[k' v] [Hk Hin]]. simpl in Hk. subst k'.
    apply filter_In in Hin. destruct Hin as [Hin Hp].
    apply in_map_iff in Hin. destruct Hin as [k' [Heq Hin]].
    inversion Heq; subst. split; [assumption|].
    unfold present in Hp. simpl in Hp. now apply negb_true_iff in Hp.
  - intros [Hin Hf]. exists (k, field_of p k). split; [reflexivity|].
    apply filter_In. split.
    + apply in_map_iff. now exists k.
    + unfold present. simpl. now rewrite Hf.
Qed.

Lemma pair_emitted_iff (p : SasQueryParameters) (k v' : string) :
  In (k, v') (parse_query (toString p))
  <-> In k params
      /\ exists v, field_of p k = Some v /\ v <> ""
                   /\ v' = encodeURIComponent v.
Proof.
  rewrite parse_toString. unfold emitted.
  rewrite canonical_fields_params, in_map_iff. split.
  - intros [[k0 v0] [Heq Hin]]. apply filter_In in Hin.
    destruct Hin as [Hin Hp]. apply in_map_iff in Hin.
    destruct Hin as [k1 [Heq1 Hin]]. inversion Heq1; subst k1 v0.
    unfold encoded_pair in Heq. simpl in Heq. inversion Heq as [[Hk Hv]].
    pose proof canonical_order_unescaped as Hall.
    rewrite Forall_forall in Hall. rewrite (Hall k0 Hin) in *.
    split; [assumption|].
    unfold present, falsy in Hp. simpl in Hp.
    destruct (field_of p k0) as [v|]; [|discriminate].
    exists v. repeat split. apply negb_true_iff in Hp.
    now apply String.eqb_neq.
  - intros [Hin [v [Hf [Hv ->]]]]. exists (k, Some v). split.
    + unfold encoded_pair. simpl.
      pose proof canonical_order_unescaped as Hall.
      rewrite Forall_forall in Hall. now rewrite (Hall k Hin).
    + apply filter_In. split.
      * apply in_map_iff. exists k. now rewrite Hf.
      * unfold present, falsy. simpl. apply negb_true_iff.
        now apply String.eqb_neq.
Qed.

Lemma append_nonempty_r (a b : string) : b <> "" -> a ++ b <> "".
Proof. intros Hb H. apply append_eq_empty in H. now destruct H. Qed.

Lemma truncatedISO8061Date_nonempty (date : Date) :
  truncatedISO8061Date date <> "".
Proof.
  unfold truncatedISO8061Date.
  destruct (civil_from_days _) as [[y m] d].
  apply append_nonempty_r. discriminate.
Qed.

Lemma subsequence_map_filter {A B : Type} (g : A -> B) (f : A -> bool)
    (l : list A) :
  subsequence (map g (filter f l)) (map g l).
Proof.
  induction l as [|x l IH]; simpl; [constructor|].
  destruct (f x); simpl; now constructor.
Qed.

Lemma emitted_nonempty_pairs (p : SasQueryParameters) :
  Forall (fun kv => fst kv <> "" /\ snd kv <> "") (emitted p).
Proof.
  unfold emitted. apply Forall_forall. intros kv H.
  apply in_map_iff in H. destruct H as [[k v] [<- H]].
  apply filter_In in H. destruct H as [Hin Hp].
  unfold encoded_pair. simpl. rewrite !encodeURIComponent_empty_iff. split.
  - apply (in_map fst) in Hin. rewrite canonical_fields_keys in Hin.
    simpl in Hin. intros ->. unfold canonical_order in Hin. simpl in Hin.
    intuition discriminate.
  - unfold present, falsy in Hp. simpl in Hp.
    destruct v as [v|]; [|discriminate]. simpl.
    apply negb_true_iff in Hp. now apply String.eqb_neq.
Qed.

Lemma toString_separators (p : SasQueryParameters) :
  prefix "&" (toString p) = false
  /\ ends_with "&" (toString p) = false
  /\ includes (toString p) "&&" = false.
Proof.
  destruct (emitted p) as [|kv l] eqn:He.
  - rewrite toString_emitted, He. now vm_compute.
  - apply no_stray_separator.
    rewrite toString_emitted.
    rewrite (split_on_join "&").
    + intros H. apply in_map_iff in H. destruct H as [[k v] [H _]].
      unfold pair_string in H. simpl in H.
      apply append_eq_empty in H. destruct H as [_ H]. discriminate.
    + rewrite He. discriminate.
    + apply Forall_forall. intros x H. apply in_map_iff in H.
      destruct H as [[k v] [<- Hin]].
      pose proof (emitted_separators p) as Hall.
      rewrite Forall_forall in Hall. destruct (Hall _ Hin) as [Hk [_ Hv]].
      unfold pair_string. simpl in *.
      rewrite occurs_append. simpl. now rewrite Hk, Hv.
Qed.

(* ================================================================== *)
(** ** The serialization claims *)

(** C1: for every [SasQueryParameters] instance, the keys of the pairs that
    [toString] emits are the keys of the fixed sequence [sv, ss, srt, spr,
    st, se, sip, si, skoid, sktid, skt, ske, sks, skv, sr, sp, sig, rscc,
    rscd, rsce, rscl, rsct, saoid, scid, tn, srk, spk, epk, erk] whose
    values are present, in that order: the table of fields has exactly
    these keys in this order, the keys read back from the output are the
    keys of its present fields, and so they form a subsequence of the fixed
    order. *)
Theorem toString_fixed_key_order (p : SasQueryParameters) :
  map fst (canonical_fields p) = canonical_order
  /\ query_keys (toString p) = map fst (filter present (canonical_fields p))
  /\ subsequence (query_keys (toString p)) canonical_order.
Proof.
  split; [apply canonical_fields_keys|].
  split; [apply query_keys_toString|].
  rewrite query_keys_toString, <- (canonical_fields_keys p).
  apply subsequence_map_filter.
Qed.

(** C2: for every instance, [toString] writes a field as [key=value], both
    percent-encoded, only when its value is present and non-empty: the
    output is the ['&']-join of the emitted pairs, which are the pairs read
    back from it; every emitted pair is the encoded key and value of a
    present field and has a non-empty key and a non-empty value; a field that is absent or empty leaves no
    pair under its key; and the output neither starts nor ends with ['&']
    nor holds two in a row. *)
Theorem toString_emission_rule (p : SasQueryParameters) :
  toString p = join "&" (map pair_string (emitted p))
  /\ parse_query (toString p) = emitted p
  /\ (forall kv, In kv (emitted p) ->
        exists field, In field (canonical_fields p)
                      /\ present field = true /\ kv = encoded_pair field)
  /\ Forall (fun kv => fst kv <> "" /\ snd kv <> "")
            (parse_query (toString p))
  /\ (forall field, In field (canonical_fields p) -> present field = false ->
        ~ In (fst field) (query_keys (toString p)))
  /\ prefix "&" (toString p) = false
  /\ ends_with "&" (toString p) = false
  /\ includes (toString p) "&&" = false.
Proof.
  split; [apply toString_emitted|].
  split; [apply parse_toString|].
  split.
  { intros kv H. rewrite emitted_unfold in H. apply in_map_iff in H.
    destruct H as [field [<- H]]. apply filter_In in H.
    exists field. now repeat split. }
  split; [rewrite parse_toString; apply emitted_nonempty_pairs|].
  split; [|apply toString_separators].
  intros field Hin Hp Hk.
  rewrite canonical_fields_params in Hin. apply in_map_iff in Hin.
  destruct Hin as [k [<- _]]. cbn [fst] in Hk.
  apply key_emitted_iff in Hk. destruct Hk as [_ Hk].
  unfold present in Hp. simpl in Hp. rewrite Hk in Hp. discriminate.
Qed.

(** C2, at an instance: an empty [services] leaves no [ss] pair. *)
Lemma toString_emission_rule_witness :
  ~ In "ss" (query_keys (toString
       {| version := Some "2023-01-01"; tableName := None; protocol := None;
          startsOn := None; expiresOn := None; permissions := Some "r";
          services := Some ""; resourceTypes := None; identifier := None;
          signature := Some "SIGXYZ"; ipRangeInner := None;
          signedOid := None; signedTenantId := None; signedStartsOn := None;
          signedExpiresOn := None; signedService := None;
          signedVersion := None; preauthorizedAgentObjectId := None;
          correlationId := None; startPartitionKey := None;
          startRowKey := None; endPartitionKey := None;
          endRowKey := None |})).
Proof.
  refine (proj1 (proj2 (proj2 (proj2 (proj2 (toString_emission_rule _)))))
            ("ss", Some "") _ _).
  - in_list.
  - reflexivity.
Defined.

(** C7: [new SasQueryParameters("2023-01-01", "SIGXYZ", {tableName: "T1",
    permissions: "r", expiresOn: 2024-01-01T00:00:00Z}).toString()] is
    exactly ["sv=2023-01-01&se=2024-01-01T00%3A00%3A00Z&sp=r&sig=SIGXYZ&tn=T1"]. *)
Theorem toString_scenario :
  completion_map toString
    (constructor (Some "2023-01-01") (Some "SIGXYZ") (Some scenario_options))
  = Normal "sv=2023-01-01&se=2024-01-01T00%3A00%3A00Z&sp=r&sig=SIGXYZ&tn=T1".
Proof. vm_compute. reflexivity. Qed.

(** C8: for every instance, two calls of [toString] in a row return the
    same string, and each call leaves the receiver as it found it. *)
Theorem toString_twice (p : SasQueryParameters) :
  let '(first, frame1) := call_toString p in
  let '(second, frame2) := call_toString (this frame1) in
  first = second /\ this frame1 = p /\ this frame2 = p.
Proof.
  rewrite call_toString_run. cbn [this].
  rewrite call_toString_run. cbn [this].
  repeat split.
Qed.

(* ================================================================== *)
(** ** The constructor claims *)

(** The constructor ends normally whatever it is given, and stores its
    first two arguments as they come. *)
Lemma constructor_total (ver sig : option string)
    (options : option Options.t) :
  exists p, constructor ver sig options = Normal p
            /\ version p = ver /\ signature p = sig.
Proof. eexists. repeat split. Qed.

(** C5, as stated, fails: [new SasQueryParameters(undefined, "SIGXYZ")] and
    [new SasQueryParameters("2023-01-01", undefined)] both end normally,
    with an object whose [toString] lacks the missing key; so does a call
    with empty strings, which the parameter types allow. *)
Lemma constructor_accepts_missing_required :
  (exists p, constructor None (Some "SIGXYZ") None = Normal p
             /\ version p = None /\ toString p = "sig=SIGXYZ")
  /\ (exists p, constructor (Some "2023-01-01") None None = Normal p
                /\ signature p = None /\ toString p = "sv=2023-01-01")
  /\ (exists p, constructor (Some "") (Some "") None = Normal p
                /\ toString p = "").
Proof.
  repeat split; eexists; repeat split; vm_compute; reflexivity.
Qed.

(** C5, amended: the constructor checks nothing when it runs.  For every
    [version], [signature] (each possibly [undefined]) and options bag
    (possibly left out), construction ends normally and the object holds
    the two arguments as given; [version] and [signature] are required by
    the parameter types only.  [toString] then writes [sv] exactly when
    the version is a non-empty string, and [sig] exactly when the signature
    is. *)
Theorem constructor_never_fails (ver sig : option string)
    (options : option Options.t) :
  exists p, constructor ver sig options = Normal p
            /\ version p = ver
            /\ signature p = sig
            /\ (In "sv" (query_keys (toString p)) <-> falsy ver = false)
            /\ (In "sig" (query_keys (toString p)) <-> falsy sig = false).
Proof.
  eexists. split; [reflexivity|]. split; [reflexivity|].
  split; [reflexivity|].
  split; rewrite key_emitted_iff; (split; [now intros [_ H] | intros H]);
    (split; [in_list | exact H]).
Qed.

(** What the constructor stores, read field by field. *)
Lemma constructor_fields (ver sig : option string)
    (options : option Options.t) (p : SasQueryParameters) :
  constructor ver sig options = Normal p ->
  let o := or_default Options.empty options in
  let udk := Options.userDelegationKey o in
  signedOid p = option_map UserDelegationKey.signedObjectId udk
  /\ signedTenantId p = option_map UserDelegationKey.signedTenantId udk
  /\ signedStartsOn p = option_map UserDelegationKey.signedStartsOn udk
  /\ signedExpiresOn p = option_map UserDelegationKey.signedExpiresOn udk
  /\ signedService p = option_map UserDelegationKey.signedService udk
  /\ signedVersion p = option_map UserDelegationKey.signedVersion udk
  /\ preauthorizedAgentObjectId p
     = match udk with
       | Some _ => Options.preauthorizedAgentObjectId o
       | None => None
       end
  /\ correlationId p
     = match udk with Some _ => Options.correlationId o | None => None end
  /\ startPartitionKey p = Options.startPartitionKey o
  /\ startRowKey p = Options.startRowKey o
  /\ endPartitionKey p = Options.endPartitionKey o
  /\ endRowKey p = Options.endRowKey o.
Proof.
  unfold constructor. intros H. injection H as <-. cbn zeta.
  repeat split.
Qed.

Lemma emitted_value (p : SasQueryParameters) (k x : string) :
  In k params -> field_of p k = Some x ->
  (In k (query_keys (toString p)) <-> x <> "")
  /\ (x <> "" -> In (k, encodeURIComponent x) (parse_query (toString p))).
Proof.
  intros Hk Hf. rewrite key_emitted_iff, pair_emitted_iff, Hf.
  unfold falsy. rewrite String.eqb_neq. split.
  - split; [now intros [_ H] | now split].
  - intros Hx. split; [assumption|]. now exists x.
Qed.

Lemma not_emitted (p : SasQueryParameters) (k : string) :
  field_of p k = None -> ~ In k (query_keys (toString p)).
Proof.
  intros Hf H. apply key_emitted_iff in H. destruct H as [_ H].
  rewrite Hf in H. discriminate.
Qed.

(** C4, as stated, fails: the options carry a delegation key, yet the
    output has no [skoid] pair, because the key's [signedObjectId] is the
    empty string and [tryAppendQueryParameter] skips empty values. *)
Lemma delegation_key_supplied_skoid_absent :
  Options.userDelegationKey (options_with_key key_without_object_id)
  = Some key_without_object_id
  /\ completion_map (fun p => query_keys (toString p))
       (constructor (Some "2023-01-01") (Some "SIGXYZ")
          (Some (options_with_key key_without_object_id)))
     = Normal ["sv"; "sktid"; "skt"; "ske"; "sks"; "skv"; "sp"; "sig"; "tn"].
Proof. split; vm_compute; reflexivity. Qed.

(** C4, amended: when no delegation key is supplied the six fields are
    [undefined] and none of [skoid, sktid, skt, ske, sks, skv] is in the
    output; when one is supplied all six fields are copied from it, each
    of the six keys is in the output exactly when the value copied for it
    is non-empty, and then it carries that value, encoded; the two
    timestamps [skt] and [ske] are always in the output. *)
Theorem delegation_key_block (ver sig : option string)
    (options : option Options.t) (p : SasQueryParameters) :
  constructor ver sig options = Normal p ->
  match Options.userDelegationKey (or_default Options.empty options) with
  | None =>
      signedOid p = None /\ signedTenantId p = None
      /\ signedStartsOn p = None /\ signedExpiresOn p = None
      /\ signedService p = None /\ signedVersion p = None
      /\ (forall k, In k delegation_keys ->
            ~ In k (query_keys (toString p)))
  | Some key =>
      signedOid p = Some (UserDelegationKey.signedObjectId key)
      /\ signedTenantId p = Some (UserDelegationKey.signedTenantId key)
      /\ signedStartsOn p = Some (UserDelegationKey.signedStartsOn key)
      /\ signedExpiresOn p = Some (UserDelegationKey.signedExpiresOn key)
      /\ signedService p = Some (UserDelegationKey.signedService key)
      /\ signedVersion p = Some (UserDelegationKey.signedVersion key)
      /\ (forall k v, In (k, v) (delegation_values key) ->
            (In k (query_keys (toString p)) <-> v <> "")
            /\ (v <> "" ->
                In (k, encodeURIComponent v) (parse_query (toString p))))
      /\ In "skt" (query_keys (toString p))
      /\ In "ske" (query_keys (toString p))
  end.
Proof.
  intros H. apply constructor_fields in H. cbn zeta in H.
  destruct H as (Hoid & Htid & Hst & Hex & Hsv & Hvr & _).
  destruct (Options.userDelegationKey (or_default Options.empty options))
    as [key|]; cbn [option_map] in *.
  - assert (forall k v, In (k, v) (delegation_values key) ->
              In k params /\ field_of p k = Some v) as Hval.
    { intros k v Hin. simpl in Hin.
      repeat destruct Hin as [Hin|Hin];
        try (injection Hin as <- <-; split; [in_list|]);
        try contradiction.
      - change (field_of p "skoid") with (signedOid p). now rewrite Hoid.
      - change (field_of p "sktid") with (signedTenantId p). now rewrite Htid.
      - change (field_of p "skt")
          with (option_map truncatedISO8061Date (signedStartsOn p)).
        now rewrite Hst.
      - change (field_of p "ske")
          with (option_map truncatedISO8061Date (signedExpiresOn p)).
        now rewrite Hex.
      - change (field_of p "sks") with (signedService p). now rewrite Hsv.
      - change (field_of p "skv") with (signedVersion p). now rewrite Hvr. }
    repeat (split; [assumption|]). split; [|split].
    + intros k v Hin. destruct (Hval k v Hin) as [Hk Hf].
      now apply emitted_value.
    + destruct (Hval "skt" _ (or_intror (or_intror (or_introl eq_refl))))
        as [Hk Hf].
      apply (emitted_value p _ _ Hk Hf), truncatedISO8061Date_nonempty.
    + destruct (Hval "ske" _
                  (or_intror (or_intror (or_intror (or_introl eq_refl)))))
        as [Hk Hf].
      apply (emitted_value p _ _ Hk Hf), truncatedISO8061Date_nonempty.
  - repeat (split; [assumption|]).
    intros k Hin. apply not_emitted. simpl in Hin.
    repeat destruct Hin as [Hin|Hin]; try contradiction; subst k.
    + change (field_of p "skoid") with (signedOid p). assumption.
    + change (field_of p "sktid") with (signedTenantId p). assumption.
    + change (field_of p "skt")
        with (option_map truncatedISO8061Date (signedStartsOn p)).
      now rewrite Hst.
    + change (field_of p "ske")
        with (option_map truncatedISO8061Date (signedExpiresOn p)).
      now rewrite Hex.
    + change (field_of p "sks") with (signedService p). assumption.
    + change (field_of p "skv") with (signedVersion p). assumption.
Qed.

(** C4, at an instance: the key of the counterexample is copied whole, and
    its timestamps and version are written. *)
Lemma delegation_key_block_witness :
  exists p,
    constructor (Some "2023-01-01") (Some "SIGXYZ")
      (Some (options_with_key key_without_object_id)) = Normal p
    /\ signedOid p = Some ""
    /\ signedVersion p = Some "2023-01-01"
    /\ In "ske" (query_keys (toString p)).
Proof.
  destruct (constructor_total (Some "2023-01-01") (Some "SIGXYZ")
              (Some (options_with_key key_without_object_id)))
    as [p [Hp _]].
  exists p. split; [exact Hp|].
  pose proof (delegation_key_block _ _ _ p Hp) as H.
  cbv beta iota delta
    [or_default options_with_key Options.userDelegationKey] in H.
  destruct H as (Hoid & _ & _ & _ & _ & Hv & _ & _ & Hske).
  split; [exact Hoid|]. split; [exact Hv | exact Hske].
Defined.

(** C10: when no [userDelegationKey] is supplied, the
    [preauthorizedAgentObjectId] and [correlationId] options are dropped,
    whatever they are: both fields of the object are [undefined], and
    neither [saoid] nor [scid] is a key of the output. *)
Theorem ids_dropped_without_delegation_key (ver sig : option string)
    (options : option Options.t) :
  Options.userDelegationKey (or_default Options.empty options) = None ->
  exists p, constructor ver sig options = Normal p
            /\ preauthorizedAgentObjectId p = None
            /\ correlationId p = None
            /\ ~ In "saoid" (query_keys (toString p))
            /\ ~ In "scid" (query_keys (toString p)).
Proof.
  intros Hkey.
  destruct (constructor_total ver sig options) as [p [Hp _]].
  exists p. split; [assumption|].
  apply constructor_fields in Hp. cbn zeta in Hp.
  destruct Hp as (_ & _ & _ & _ & _ & _ & Hagent & Hcorr & _).
  rewrite Hkey in Hagent, Hcorr.
  repeat split; try assumption; apply not_emitted.
  - change (field_of p "saoid") with (preauthorizedAgentObjectId p).
    assumption.
  - change (field_of p "scid") with (correlationId p). assumption.
Qed.

(** C10, at an instance: both ids are given, no key is. *)
Lemma ids_dropped_without_delegation_key_witness :
  Options.preauthorizedAgentObjectId options_ids_without_key
  = Some "agent-oid"
  /\ Options.correlationId options_ids_without_key = Some "corr-id"
  /\ exists p,
       constructor (Some "2023-01-01") (Some "SIGXYZ")
         (Some options_ids_without_key) = Normal p
       /\ preauthorizedAgentObjectId p = None
       /\ correlationId p = None
       /\ ~ In "saoid" (query_keys (toString p))
       /\ ~ In "scid" (query_keys (toString p)).
Proof.
  split; [reflexivity|]. split; [reflexivity|].
  apply (ids_dropped_without_delegation_key (Some "2023-01-01")
           (Some "SIGXYZ") (Some options_ids_without_key)).
  reflexivity.
Defined.




(* ================================================================== *)
(** ** The IP range codec *)

(** C6: the [sip] string of a start/end pair is the start alone when the
    end is absent or equal to the start, and start, a hyphen and end
    otherwise; no string is refused, whatever it holds; the pair
    ["10.0.0.1"], ["10.0.0.5"] gives ["10.0.0.1-10.0.0.5"]; and [toString]
    writes that string, percent-encoded, under [sip]. *)
Theorem ipRangeToString_format (s e : string) :
  ipRangeToString {| start := s; end_ := None |} = s
  /\ ipRangeToString {| start := s; end_ := Some s |} = s
  /\ (e <> s ->
      ipRangeToString {| start := s; end_ := Some e |} = s ++ "-" ++ e)
  /\ ipRangeToString {| start := "10.0.0.1"; end_ := Some "10.0.0.5" |}
     = "10.0.0.1-10.0.0.5"
  /\ (forall p range,
        ipRangeInner p = Some range -> ipRangeToString range <> "" ->
        In ("sip", encodeURIComponent (ipRangeToString range))
           (parse_query (toString p))).
Proof.
  unfold ipRangeToString. cbn [start end_].
  split; [reflexivity|].
  split; [now rewrite String.eqb_refl|].
  split; [intros H; apply String.eqb_neq in H; now rewrite H|].
  split; [reflexivity|].
  intros p range Hin Hne.
  apply (emitted_value p "sip"); [in_list| |assumption].
  change (field_of p "sip") with (option_map ipRangeToString (ipRange p)).
  unfold ipRange. rewrite Hin. now destruct range.
Qed.

(** C6, at an instance: two strings that are no IP addresses. *)
Lemma ipRangeToString_format_witness :
  ipRangeToString {| start := "not an ip"; end_ := Some "::?" |}
  = "not an ip-::?".
Proof.
  apply (proj1 (proj2 (proj2 (ipRangeToString_format "not an ip" "::?")))).
  discriminate.
Defined.

(* ================================================================== *)
(** ** The dispatcher *)

(** C3: [getLongRunningPoller] returns what [getFileValidationPoller]
    makes when the request URL of the response contains ["/files/"];
    otherwise, when the URL contains ["/test-runs/"], what
    [getTestRunCompletionPoller] makes; otherwise it throws
    ["The Operation is not a long running operation."] and returns no
    poller.  The first test wins: a URL with both segments gets the
    file-validation poller. *)
Theorem getLongRunningPoller_dispatch
    (Client FilePoller RunPoller : Type)
    (getFileValidationPoller :
       Client -> HttpResponse -> completion FilePoller)
    (getTestRunCompletionPoller :
       Client -> HttpResponse -> completion RunPoller)
    (client : Client) (initialResponse : HttpResponse) :
  let target := url (request initialResponse) in
  let result :=
    getLongRunningPoller getFileValidationPoller getTestRunCompletionPoller
      client initialResponse in
  (contains target "/files/" ->
   result = completion_map inr (getFileValidationPoller client initialResponse))
  /\ (~ contains target "/files/" -> contains target "/test-runs/" ->
      result
      = completion_map inl (getTestRunCompletionPoller client initialResponse))
  /\ (~ contains target "/files/" -> ~ contains target "/test-runs/" ->
      result = Throw "The Operation is not a long running operation."
      /\ forall poller, result <> Normal poller).
Proof.
  cbv zeta. unfold getLongRunningPoller, isFileUpload, isTestRunCreation.
  fold (contains (url (request initialResponse)) "/files/").
  fold (contains (url (request initialResponse)) "/test-runs/").
  split; [|split].
  - intros Hf. apply includes_iff in Hf. now rewrite Hf.
  - intros Hf Hr. apply includes_false_iff in Hf. apply includes_iff in Hr.
    now rewrite Hf, Hr.
  - intros Hf Hr. apply includes_false_iff in Hf, Hr.
    rewrite Hf, Hr. split; [reflexivity | discriminate].
Qed.

(** C3, at the three request paths of section 8, with pollers that record
    which factory made them. *)
Lemma getLongRunningPoller_dispatch_witness :
  let file := fun (_ : unit) (r : HttpResponse) =>
                Normal ("file validation", url (request r)) in
  let run := fun (_ : unit) (r : HttpResponse) =>
               Normal ("run completion", url (request r)) in
  getLongRunningPoller file run tt (response_to "/files/abc123")
  = Normal (inr ("file validation",
                 "https://host.example/tests/t1/files/abc123"))
  /\ getLongRunningPoller file run tt (response_to "/test-runs/run1")
     = Normal (inl ("run completion",
                    "https://host.example/tests/t1/test-runs/run1"))
  /\ getLongRunningPoller file run tt (response_to "/widgets/1")
     = Throw "The Operation is not a long running operation.".
Proof.
  intros file run. split; [|split].
  - apply (proj1 (getLongRunningPoller_dispatch _ _ _ file run tt
                    (response_to "/files/abc123"))).
    apply includes_iff. reflexivity.
  - apply (proj1 (proj2 (getLongRunningPoller_dispatch _ _ _ file run tt
                           (response_to "/test-runs/run1")))).
    + apply includes_false_iff. reflexivity.
    + apply includes_iff. reflexivity.
  - apply (proj2 (proj2 (getLongRunningPoller_dispatch _ _ _ file run tt
                           (response_to "/widgets/1")))).
    + apply includes_false_iff. reflexivity.
    + apply includes_false_iff. reflexivity.
Defined.

(* ================================================================== *)
(** ** More about the serializer *)

Lemma append_assoc (a b c : string) : (a ++ b) ++ c = a ++ b ++ c.
Proof. induction a as [|x a IH]; simpl; [reflexivity | now rewrite IH]. Qed.

Lemma string_forallb_append (f : ascii -> bool) (a b : string) :
  string_forallb f (a ++ b) = string_forallb f a && string_forallb f b.
Proof.
  induction a as [|c a IH]; simpl; [reflexivity|].
  now rewrite IH, andb_assoc.
Qed.

Lemma encodeChar_query_chars (c : ascii) :
  string_forallb query_char (encodeChar c) = true.
Proof. destruct c as [[] [] [] [] [] [] [] []]; vm_compute; reflexivity. Qed.

Lemma encodeURIComponent_query_chars (s : string) :
  string_forallb query_char (encodeURIComponent s) = true.
Proof.
  induction s as [|c s IH]; [reflexivity|].
  now rewrite encodeURIComponent_cons, string_forallb_append,
    encodeChar_query_chars, IH.
Qed.

Lemma join_query_chars (l : list string) :
  Forall (fun x => string_forallb query_char x = true) l ->
  string_forallb query_char (join "&" l) = true.
Proof.
  induction l as [|x l IH]; intros Hall; [reflexivity|].
  inversion Hall as [|? ? Hx Hl]; subst.
  destruct l as [|y l]; [exact Hx|].
  change (join "&" (x :: y :: l)) with (x ++ "&" ++ join "&" (y :: l)).
  rewrite !string_forallb_append, Hx, (IH Hl). reflexivity.
Qed.

Lemma uriUnescaped_not_percent (c : ascii) :
  uriUnescaped c = true -> Ascii.eqb c "%" = false.
Proof.
  destruct c as [[] [] [] [] [] [] [] []]; vm_compute; intros H;
    reflexivity || discriminate H.
Qed.

Lemma hexDigit_value (c : ascii) :
  let n := nat_of_ascii c in
  hexValue (hexDigit (n / 16)) = Some (n / 16)
  /\ hexValue (hexDigit (n mod 16)) = Some (n mod 16)
  /\ ascii_of_nat (16 * (n / 16) + n mod 16) = c.
Proof.
  destruct c as [[] [] [] [] [] [] [] []]; vm_compute; repeat split.
Qed.

Lemma percentDecode_encodeChar (c : ascii) (rest : string) :
  percentDecode (encodeChar c ++ rest)
  = option_map (String c) (percentDecode rest).
Proof.
  unfold encodeChar. destruct (uriUnescaped c) eqn:Hc.
  - cbn [append percentDecode]. now rewrite (uriUnescaped_not_percent c Hc).
  - unfold percentEncode. cbn [append percentDecode].
    destruct (hexDigit_value c) as (Hh & Hl & Hv).
    change (Ascii.eqb "%" "%") with true. cbv iota.
    now rewrite Hh, Hl, Hv.
Qed.

Lemma percentDecode_encodeURIComponent (s : string) :
  percentDecode (encodeURIComponent s) = Some s.
Proof.
  induction s as [|c s IH]; [reflexivity|].
  now rewrite encodeURIComponent_cons, percentDecode_encodeChar, IH.
Qed.

Lemma encodeURIComponent_injective (a b : string) :
  encodeURIComponent a = encodeURIComponent b -> a = b.
Proof.
  intros H. apply (f_equal percentDecode) in H.
  rewrite !percentDecode_encodeURIComponent in H. now injection H.
Qed.

Lemma encoded_pair_injective (f g : string * option string) :
  present f = true -> present g = true ->
  encoded_pair f = encoded_pair g -> f = g.
Proof.
  destruct f as [k [v|]], g as [k' [v'|]]; try discriminate.
  intros _ _ H. unfold encoded_pair in H. simpl in H.
  injection H as Hk Hv.
  apply encodeURIComponent_injective in Hk, Hv. now subst.
Qed.

Lemma map_injective_on {A B : Type} (P : A -> Prop) (f : A -> B)
    (l1 l2 : list A) :
  (forall x y, P x -> P y -> f x = f y -> x = y) ->
  Forall P l1 -> Forall P l2 -> map f l1 = map f l2 -> l1 = l2.
Proof.
  intros Hinj. revert l2.
  induction l1 as [|x l1 IH]; intros [|y l2] H1 H2 H; try discriminate.
  - reflexivity.
  - inversion H1; inversion H2; subst. simpl in H. injection H as Hxy Hl.
    f_equal; [now apply Hinj | now apply IH].
Qed.

Lemma filter_all {A : Type} (f : A -> bool) (l : list A) :
  Forall (fun x => f x = true) (filter f l).
Proof. apply Forall_forall. intros x H. now apply filter_In in H. Qed.

Lemma nodupb_NoDup (l : list string) : nodupb l = true -> NoDup l.
Proof.
  induction l as [|x l IH]; simpl; [constructor|].
  intros H. apply andb_true_iff in H. destruct H as [Hx Hl].
  constructor; [|now apply IH].
  intros Hin. apply negb_true_iff in Hx.
  assert (existsb (String.eqb x) l = true) as Hex.
  { apply existsb_exists. exists x. split; [assumption|].
    apply String.eqb_refl. }
  congruence.
Qed.

Lemma subsequence_In {A : Type} (l1 l2 : list A) (x : A) :
  subsequence l1 l2 -> In x l1 -> In x l2.
Proof.
  induction 1 as [|y l1 l2 _ IH|y l1 l2 _ IH]; simpl; intuition.
Qed.

Lemma subsequence_NoDup {A : Type} (l1 l2 : list A) :
  subsequence l1 l2 -> NoDup l2 -> NoDup l1.
Proof.
  induction 1 as [|y l1 l2 Hs IH|y l1 l2 Hs IH]; intros Hnd.
  - constructor.
  - inversion Hnd; subst. now apply IH.
  - inversion Hnd as [|? ? Hy Hl]; subst. constructor; [|now apply IH].
    intros Hin. apply Hy. now apply (subsequence_In l1 l2).
Qed.

Lemma field_of_cased (p : SasQueryParameters) (k : string) :
  field_of p k <> None -> In k cased_keys.
Proof.
  unfold field_of.
  repeat match goal with
         | |- context [k =? ?c] =>
             destruct (String.eqb_spec k c) as [->|_]; [intros _; in_list|]
         end.
  congruence.
Qed.

Lemma join_cons (sep x : string) (l : list string) :
  join sep (x :: l)
  = x ++ match l with [] => "" | _ :: _ => sep ++ join sep l end.
Proof.
  destruct l; simpl; [|reflexivity].
  induction x as [|c x IH]; simpl; [reflexivity | now rewrite <- IH].
Qed.

Lemma cased_keys_params (k : string) : In k cased_keys -> In k params.
Proof.
  unfold cased_keys. simpl.
  intros H; repeat destruct H as [<-|H]; try contradiction; in_list.
Qed.

Lemma query_keys_cased (p : SasQueryParameters) :
  Forall (fun k => In k cased_keys) (query_keys (toString p)).
Proof.
  apply Forall_forall. intros k H. apply key_emitted_iff in H.
  destruct H as [_ H]. apply (field_of_cased p). intros Hnone.
  rewrite Hnone in H. discriminate.
Qed.

Lemma query_keys_NoDup (p : SasQueryParameters) :
  NoDup (query_keys (toString p)).
Proof.
  apply (subsequence_NoDup _ canonical_order).
  - rewrite query_keys_toString, <- (canonical_fields_keys p).
    apply subsequence_map_filter.
  - apply nodupb_NoDup. vm_compute. reflexivity.
Qed.

Lemma filter_cons_true {A : Type} (f : A -> bool) (x : A) (l : list A) :
  f x = true -> filter f (x :: l) = x :: filter f l.
Proof. intros H. simpl. now rewrite H. Qed.

Lemma join_present_head (f : string * option string)
    (l : list (string * option string)) :
  present f = true ->
  join "&" (map pair_string (map encoded_pair (filter present (f :: l))))
  = pair_string (encoded_pair f)
    ++ match map pair_string (map encoded_pair (filter present l)) with
       | [] => ""
       | _ :: _ =>
           "&" ++ join "&"
                    (map pair_string (map encoded_pair (filter present l)))
       end.
Proof.
  intros H. rewrite filter_cons_true by assumption. cbn [map].
  apply join_cons.
Qed.

Lemma canonical_fields_head (p : SasQueryParameters) :
  canonical_fields p = ("sv", version p) :: tl (canonical_fields p).
Proof. reflexivity. Qed.

(** X1: [tryAppendQueryParameter] writes nothing but [queries], keeps what
    the array held, and appends exactly one entry,
    [encodeURIComponent(key)=encodeURIComponent(value)], when the key is
    non-empty and the value is neither [undefined] nor empty; in every
    other case (an empty key among them) it appends nothing.  The two
    length tests after encoding never turn down a non-empty string. *)
Theorem tryAppendQueryParameter_effect (key : string)
    (value : option string) (fr : Frame) :
  tryAppendQueryParameter key value fr
  = (tt, {| this := this fr;
            queries :=
              queries fr
              ++ (if negb (key =? "") && negb (falsy value)
                  then [encodeURIComponent key ++ "="
                        ++ encodeURIComponent (or_default "" value)]
                  else []) |}).
Proof.
  destruct (String.eqb_spec key "") as [->|Hkey].
  - cbn [negb andb]. rewrite app_nil_r.
    unfold tryAppendQueryParameter.
    destruct value as [v|]; [|now destruct fr].
    destruct (v =? ""); now destruct fr.
  - rewrite (tryAppendQueryParameter_run key value fr Hkey).
    cbn [negb andb]. unfold present. cbn [snd].
    destruct (falsy value); reflexivity.
Qed.

(** X2: whatever the instance, every key of the output is one of the 23
    parameters that have a [case] in the [switch]; the six that have none
    ([sr], [rscc], [rscd], [rsce], [rscl], [rsct]) are never written. *)
Theorem toString_keys_have_a_case (p : SasQueryParameters) :
  Forall (fun k => In k cased_keys) (query_keys (toString p))
  /\ Forall (fun k => ~ In k (query_keys (toString p))) uncased_keys.
Proof.
  split; [apply query_keys_cased|].
  unfold uncased_keys.
  repeat (apply Forall_cons; [apply (not_emitted p); reflexivity|]).
  apply Forall_nil.
Qed.

(** X3: the output of [toString] is made of the characters that
    [encodeURIComponent] leaves alone and of [%], [&] and [=] only: no
    blank, [#], [?], [+] or [/] gets into it, whatever the fields hold. *)
Theorem toString_query_chars (p : SasQueryParameters) :
  string_forallb query_char (toString p) = true.
Proof.
  rewrite toString_emitted. apply join_query_chars.
  apply Forall_forall. intros x H. apply in_map_iff in H.
  destruct H as [kv [<- H]]. rewrite emitted_unfold in H.
  apply in_map_iff in H. destruct H as [f [<- _]].
  unfold pair_string, encoded_pair. cbn [fst snd].
  rewrite !string_forallb_append, !encodeURIComponent_query_chars.
  reflexivity.
Qed.

(** X4: two instances have the same [toString] output exactly when the
    same keys are written with the same serialized values, that is, when
    the strings handed to [tryAppendQueryParameter] (a field as it is, a
    date after truncation to the second, the IP range after
    [ipRangeToString], the protocol by its name) agree wherever they are
    non-empty.  So equal outputs give, for every key, the same serialized
    value; for the fields that are plain strings this is the field
    itself.  Values that are serialized alike, such as two dates within
    the same second, are not told apart. *)
Theorem toString_injective (p q : SasQueryParameters) :
  (toString p = toString q
   <-> filter present (canonical_fields p)
       = filter present (canonical_fields q))
  /\ (toString p = toString q ->
      forall k v, field_of p k = Some v -> v <> "" -> field_of q k = Some v).
Proof.
  assert (toString p = toString q ->
          filter present (canonical_fields p)
          = filter present (canonical_fields q)) as Hinj.
  { intros H. apply (f_equal parse_query) in H.
    rewrite !parse_toString, !emitted_unfold in H.
    revert H. apply (map_injective_on (fun f => present f = true)).
    - apply encoded_pair_injective.
    - apply filter_all.
    - apply filter_all. }
  split; [split|].
  - exact Hinj.
  - intros H. now rewrite !toString_emitted, !emitted_unfold, H.
  - intros H k v Hf Hne.
    assert (In (k, encodeURIComponent v) (parse_query (toString p))) as Hin.
    { apply pair_emitted_iff. split.
      - apply cased_keys_params, (field_of_cased p). congruence.
      - now exists v. }
    rewrite H in Hin. apply pair_emitted_iff in Hin.
    destruct Hin as [_ [v' [Hq [_ Henc]]]].
    apply encodeURIComponent_injective in Henc. congruence.
Qed.

(** X5: when the version is a non-empty string, the output starts with
    [sv=] and the encoded version, followed by nothing or by [&] and the
    other pairs. *)
Theorem toString_starts_with_version (p : SasQueryParameters) (v : string) :
  version p = Some v -> v <> "" ->
  exists rest,
    toString p = "sv=" ++ encodeURIComponent v ++ rest
    /\ (rest = "" \/ exists more, rest = "&" ++ more).
Proof.
  intros Hv Hne.
  rewrite toString_emitted, emitted_unfold, canonical_fields_head, Hv.
  rewrite join_present_head.
  - generalize (map pair_string
                  (map encoded_pair
                     (filter present (tl (canonical_fields p))))).
    intros l. unfold pair_string, encoded_pair.
    cbn [fst snd or_default].
    change (encodeURIComponent "sv") with "sv".
    rewrite !append_assoc.
    destruct l as [|x l].
    + exists "". split; [reflexivity | now left].
    + exists ("&" ++ join "&" (x :: l)). split; [reflexivity|].
      right. now exists (join "&" (x :: l)).
  - unfold present, falsy. cbn [snd]. apply negb_true_iff.
    now apply String.eqb_neq.
Qed.

(** X5, at the instance with every field present. *)
Lemma toString_starts_with_version_witness :
  exists rest,
    toString full_instance = "sv=2023-01-01" ++ rest
    /\ (rest = "" \/ exists more, rest = "&" ++ more).
Proof.
  apply (toString_starts_with_version full_instance "2023-01-01");
    [reflexivity | discriminate].
Defined.

(** X6: the output is the empty string exactly when no field is present,
    that is, when each of the 23 values is [undefined] or empty. *)
Theorem toString_empty_iff (p : SasQueryParameters) :
  toString p = "" <-> filter present (canonical_fields p) = [].
Proof.
  rewrite toString_emitted, emitted_unfold, join_empty_iff.
  - split; intros H.
    + apply map_eq_nil in H. now apply map_eq_nil in H.
    + now rewrite H.
  - apply Forall_forall. intros x H. apply in_map_iff in H.
    destruct H as [[k v] [<- _]]. unfold pair_string. cbn [fst snd].
    apply append_nonempty_r. discriminate.
Qed.

(** X7: the [resource] option is never read: options that differ in
    [resource] only build the same object. *)
Theorem constructor_ignores_resource (ver sig : option string)
    (o : Options.t) (resource : option string) :
  constructor ver sig (Some (with_resource o resource))
  = constructor ver sig (Some o).
Proof. destruct o. reflexivity. Qed.

(** X8: no key is written twice, so the output holds at most 23 pairs. *)
Theorem toString_keys_unique (p : SasQueryParameters) :
  NoDup (query_keys (toString p))
  /\ List.length (query_keys (toString p)) <= 23.
Proof.
  split; [apply query_keys_NoDup|].
  change 23 with (List.length cased_keys).
  apply NoDup_incl_length; [apply query_keys_NoDup|].
  intros k H. pose proof (query_keys_cased p) as Hall.
  rewrite Forall_forall in Hall. now apply Hall.
Qed.

Lemma canonical_fields_split (p : SasQueryParameters) :
  canonical_fields p
  = (firstn 25 (canonical_fields p)
     ++ [ ("srk", startRowKey p); ("spk", startPartitionKey p);
          ("epk", endPartitionKey p); ("erk", endRowKey p) ])%list.
Proof. reflexivity. Qed.

Lemma present_some (k v : string) : v <> "" -> present (k, Some v) = true.
Proof.
  intros H. unfold present, falsy. cbn [snd]. apply negb_true_iff.
  now apply String.eqb_neq.
Qed.

(** X13: when the four partition and row keys are non-empty, their pairs
    are the last four of the output and stand in the order of the array:
    [srk] before [spk] for the lower bound, but [epk] before [erk] for the
    upper bound.  The order of the [case]s in the [switch], where [spk]
    comes before [srk], plays no part. *)
Theorem toString_range_keys_last (p : SasQueryParameters)
    (srk spk epk erk : string) :
  startRowKey p = Some srk -> startPartitionKey p = Some spk ->
  endPartitionKey p = Some epk -> endRowKey p = Some erk ->
  srk <> "" -> spk <> "" -> epk <> "" -> erk <> "" ->
  exists before,
    parse_query (toString p)
    = (before
       ++ [ ("srk", encodeURIComponent srk); ("spk", encodeURIComponent spk);
            ("epk", encodeURIComponent epk);
            ("erk", encodeURIComponent erk) ])%list.
Proof.
  intros Hsrk Hspk Hepk Herk Nsrk Nspk Nepk Nerk.
  rewrite parse_toString, emitted_unfold, canonical_fields_split.
  rewrite Hsrk, Hspk, Hepk, Herk, filter_app, map_app.
  exists (map encoded_pair
            (filter present (firstn 25 (canonical_fields p)))).
  f_equal.
  rewrite !filter_cons_true by now apply present_some.
  reflexivity.
Qed.

(** X13, at the instance with every field present. *)
Lemma toString_range_keys_last_witness :
  exists before,
    parse_query (toString full_instance)
    = (before
       ++ [("srk", "r%3D1"); ("spk", "p%261"); ("epk", "p%209");
           ("erk", "r%259")])%list.
Proof.
  apply (toString_range_keys_last full_instance "r=1" "p&1" "p 9" "r%9");
    reflexivity || discriminate.
Defined.

(* ================================================================== *)
(** ** More about the dispatcher *)

(** X9: what [getLongRunningPoller] hands back tells where it came from.
    A file-validation poller comes from [getFileValidationPoller] and a URL
    with ["/files/"]; a run-completion poller comes from
    [getTestRunCompletionPoller] and a URL with ["/test-runs/"] and without
    ["/files/"]; and an error is the one of the factory that was chosen,
    or, for a URL with neither segment, the "not a long running operation"
    error. *)
Theorem getLongRunningPoller_origin
    (Client FilePoller RunPoller : Type)
    (getFileValidationPoller :
       Client -> HttpResponse -> completion FilePoller)
    (getTestRunCompletionPoller :
       Client -> HttpResponse -> completion RunPoller)
    (client : Client) (initialResponse : HttpResponse) :
  let target := url (request initialResponse) in
  let result :=
    getLongRunningPoller getFileValidationPoller getTestRunCompletionPoller
      client initialResponse in
  (forall poller, result = Normal (inr poller) ->
     contains target "/files/"
     /\ getFileValidationPoller client initialResponse = Normal poller)
  /\ (forall poller, result = Normal (inl poller) ->
        ~ contains target "/files/" /\ contains target "/test-runs/"
        /\ getTestRunCompletionPoller client initialResponse = Normal poller)
  /\ (forall message, result = Throw message ->
        (contains target "/files/"
         /\ getFileValidationPoller client initialResponse = Throw message)
        \/ (~ contains target "/files/" /\ contains target "/test-runs/"
            /\ getTestRunCompletionPoller client initialResponse
               = Throw message)
        \/ (~ contains target "/files/" /\ ~ contains target "/test-runs/"
            /\ message = "The Operation is not a long running operation.")).
Proof.
  cbv zeta. unfold getLongRunningPoller, isFileUpload, isTestRunCreation.
  destruct (includes (url (request initialResponse)) "/files/") eqn:Hf.
  - apply includes_iff in Hf.
    destruct (getFileValidationPoller client initialResponse) as [fp|e];
      cbn [completion_map]; (split; [|split]); intros x H;
      try discriminate H; injection H as <-.
    + now split.
    + left. now split.
  - apply includes_false_iff in Hf.
    destruct (includes (url (request initialResponse)) "/test-runs/")
      eqn:Hr.
    + apply includes_iff in Hr.
      destruct (getTestRunCompletionPoller client initialResponse)
        as [rp|e];
        cbn [completion_map]; (split; [|split]); intros x H;
        try discriminate H; injection H as <-.
      * now repeat split.
      * right. left. now repeat split.
    + apply includes_false_iff in Hr.
      (split; [|split]); intros x H; try discriminate H.
      injection H as <-. right. right. now repeat split.
Qed.

(* ================================================================== *)
(** ** Paging over apply-updates *)

(** X10: when the request answers, iterating [list(...)] to the end yields
    exactly the records of the response's [value], in order, and ends
    without an error after that one request; a response without [value]
    yields nothing. *)
Theorem list_yields_response_value
    (ApplyUpdate OptionalParams World : Type)
    (sendOperationRequest :
       ApplyUpdateForResourceGroupImpl.OperationArguments OptionalParams ->
       OperationSpec -> World ->
       completion (ApplyUpdateForResourceGroupImpl.ListResponse ApplyUpdate)
       * World)
    (resourceGroupName : string) (options : option OptionalParams)
    (w w' : World)
    (response : ApplyUpdateForResourceGroupImpl.ListResponse ApplyUpdate) :
  sendOperationRequest
    (ApplyUpdateForResourceGroupImpl.Build_OperationArguments _
       resourceGroupName options)
    listOperationSpec w = (Normal response, w') ->
  ApplyUpdateForResourceGroupImpl.next
    (ApplyUpdateForResourceGroupImpl.list sendOperationRequest
       resourceGroupName options) w
  = ({| yielded :=
          match ApplyUpdateForResourceGroupImpl.value response with
          | Some records => records
          | None => []
          end;
        thrown := None |}, w').
Proof.
  intros H. cbn [ApplyUpdateForResourceGroupImpl.list
                   ApplyUpdateForResourceGroupImpl.next].
  unfold ApplyUpdateForResourceGroupImpl.listPagingAll,
    ApplyUpdateForResourceGroupImpl.listPagingPage,
    ApplyUpdateForResourceGroupImpl._list.
  rewrite H. cbn [yielded thrown concat].
  rewrite app_nil_r. now destruct (ApplyUpdateForResourceGroupImpl.value _).
Qed.

(** X10, at two services: one that answers with two records, one that
    answers without a [value]. *)
Lemma list_yields_response_value_witness :
  ApplyUpdateForResourceGroupImpl.next
    (ApplyUpdateForResourceGroupImpl.list service_two_records "rg" None) 0
  = ({| yielded := ["update-1"; "update-2"]; thrown := None |}, 1)
  /\ ApplyUpdateForResourceGroupImpl.next
       (ApplyUpdateForResourceGroupImpl.list service_no_value "rg" None) 0
     = ({| yielded := []; thrown := None |}, 1).
Proof.
  split.
  - apply (list_yields_response_value string unit nat service_two_records
             "rg" None 0 1
             (ApplyUpdateForResourceGroupImpl.Build_ListResponse
                (Some ["update-1"; "update-2"]))).
    reflexivity.
  - apply (list_yields_response_value string unit nat service_no_value
             "rg" None 0 1
             (ApplyUpdateForResourceGroupImpl.Build_ListResponse None)).
    reflexivity.
Defined.

(** X11: [byPage()] and [list] agree.  From the same state of the service,
    the records that iterating [list(...)] yields are the pages of
    [byPage()] laid end to end; both end the same way (with the same
    error, if the request fails) after the same request; and there is at
    most one page, none when the request fails. *)
Theorem list_is_flattened_byPage
    (ApplyUpdate OptionalParams World : Type)
    (sendOperationRequest :
       ApplyUpdateForResourceGroupImpl.OperationArguments OptionalParams ->
       OperationSpec -> World ->
       completion (ApplyUpdateForResourceGroupImpl.ListResponse ApplyUpdate)
       * World)
    (resourceGroupName : string) (options : option OptionalParams)
    (w : World) :
  let iterator :=
    ApplyUpdateForResourceGroupImpl.list sendOperationRequest
      resourceGroupName options in
  exists pages,
    ApplyUpdateForResourceGroupImpl.byPage iterator None = Normal pages
    /\ yielded (fst (ApplyUpdateForResourceGroupImpl.next iterator w))
       = concat (yielded (fst (pages w)))
    /\ thrown (fst (ApplyUpdateForResourceGroupImpl.next iterator w))
       = thrown (fst (pages w))
    /\ snd (ApplyUpdateForResourceGroupImpl.next iterator w) = snd (pages w)
    /\ List.length (yielded (fst (pages w))) <= 1
    /\ (thrown (fst (pages w)) <> None -> yielded (fst (pages w)) = []).
Proof.
  cbv zeta. eexists. split; [reflexivity|].
  cbn [ApplyUpdateForResourceGroupImpl.list
         ApplyUpdateForResourceGroupImpl.next].
  unfold ApplyUpdateForResourceGroupImpl.listPagingAll.
  destruct (ApplyUpdateForResourceGroupImpl.listPagingPage
              sendOperationRequest resourceGroupName options None w)
    as [pages w'] eqn:Hpages.
  cbn [fst snd yielded thrown]. repeat split.
  - unfold ApplyUpdateForResourceGroupImpl.listPagingPage in Hpages.
    destruct (ApplyUpdateForResourceGroupImpl._list _ _ _ _ _ _ w)
      as [[r|e] w0]; injection Hpages as <- _; cbn [yielded List.length];
      lia.
  - unfold ApplyUpdateForResourceGroupImpl.listPagingPage in Hpages.
    destruct (ApplyUpdateForResourceGroupImpl._list _ _ _ _ _ _ w)
      as [[r|e] w0]; injection Hpages as <- _; cbn [yielded thrown];
      congruence.
Qed.

(** X12: [byPage(settings)] throws "maxPageSize is not supported by this
    operation." exactly when [settings.maxPageSize] is a truthy number,
    that is, a number other than [+0], [-0] and [NaN]; in every other case
    it returns the generator of [byPage()], so a [continuationToken]
    changes nothing and a [maxPageSize] of [0] or [NaN] is let through. *)
Theorem byPage_settings
    (ApplyUpdate OptionalParams World : Type)
    (sendOperationRequest :
       ApplyUpdateForResourceGroupImpl.OperationArguments OptionalParams ->
       OperationSpec -> World ->
       completion (ApplyUpdateForResourceGroupImpl.ListResponse ApplyUpdate)
       * World)
    (resourceGroupName : string) (options : option OptionalParams)
    (settings : option PageSettings) :
  let iterator :=
    ApplyUpdateForResourceGroupImpl.list sendOperationRequest
      resourceGroupName options in
  let refused :=
    exists s n, settings = Some s /\ maxPageSize s = Some n
                /\ PrimFloat.is_nan n = false
                /\ PrimFloat.is_zero n = false in
  (refused
   /\ ApplyUpdateForResourceGroupImpl.byPage iterator settings
      = Throw "maxPageSize is not supported by this operation.")
  \/ (~ refused
      /\ exists pages first,
           ApplyUpdateForResourceGroupImpl.byPage iterator settings
           = Normal pages
           /\ ApplyUpdateForResourceGroupImpl.byPage iterator None
              = Normal first
           /\ forall w, pages w = first w).
Proof.
  cbv zeta. cbn [ApplyUpdateForResourceGroupImpl.list
                   ApplyUpdateForResourceGroupImpl.byPage].
  destruct settings as [[token [n|]]|];
    cbn [ApplyUpdateForResourceGroupImpl.maxPageSize_truthy maxPageSize].
  - unfold number_truthy.
    destruct (PrimFloat.is_nan n) eqn:Hnan;
      [|destruct (PrimFloat.is_zero n) eqn:Hzero]; cbn [orb negb].
    + right. split.
      * intros (s & m & Hs & Hm & Hn & _). injection Hs as <-.
        cbn in Hm. congruence.
      * do 2 eexists. repeat split; reflexivity.
    + right. split.
      * intros (s & m & Hs & Hm & _ & Hz). injection Hs as <-.
        cbn in Hm. congruence.
      * do 2 eexists. repeat split; reflexivity.
    + left. split; [|reflexivity]. eexists. exists n. now repeat split.
  - right. split.
    + intros (s & m & Hs & Hm & _). injection Hs as <-. discriminate Hm.
    + do 2 eexists. repeat split; reflexivity.
  - right. split.
    + intros (s & m & Hs & _). discriminate Hs.
    + do 2 eexists. repeat split; reflexivity.
Qed.

(** X12, at three settings: a [maxPageSize] of [NaN] with a continuation
    token and a [maxPageSize] of [-0] are let through; [2] is refused. *)
Lemma byPage_settings_witness :
  (exists pages,
     ApplyUpdateForResourceGroupImpl.byPage
       (ApplyUpdateForResourceGroupImpl.list service_two_records "rg" None)
       (Some {| continuationToken := Some "token";
                maxPageSize := Some PrimFloat.nan |})
     = Normal pages)
  /\ (exists pages,
        ApplyUpdateForResourceGroupImpl.byPage
          (ApplyUpdateForResourceGroupImpl.list service_two_records "rg"
             None)
          (Some {| continuationToken := None;
                   maxPageSize := Some PrimFloat.neg_zero |})
        = Normal pages)
  /\ ApplyUpdateForResourceGroupImpl.byPage
       (ApplyUpdateForResourceGroupImpl.list service_two_records "rg" None)
       (Some {| continuationToken := None;
                maxPageSize := Some PrimFloat.two |})
     = Throw "maxPageSize is not supported by this operation.".
Proof.
  split; [|split].
  - destruct (byPage_settings string unit nat service_two_records "rg" None
                (Some {| continuationToken := Some "token";
                         maxPageSize := Some PrimFloat.nan |}))
      as [[(s & n & Hs & Hm & Hnan & _) _] | [_ (pages & _ & H & _)]].
    + injection Hs as <-. injection Hm as <-. discriminate Hnan.
    + now exists pages.
  - destruct (byPage_settings string unit nat service_two_records "rg" None
                (Some {| continuationToken := None;
                         maxPageSize := Some PrimFloat.neg_zero |}))
      as [[(s & n & Hs & Hm & _ & Hzero) _] | [_ (pages & _ & H & _)]].
    + injection Hs as <-. injection Hm as <-. discriminate Hzero.
    + now exists pages.
  - destruct (byPage_settings string unit nat service_two_records "rg" None
                (Some {| continuationToken := None;
                         maxPageSize := Some PrimFloat.two |}))
      as [[_ H] | [Hnot _]].
    + exact H.
    + exfalso. apply Hnot. do 2 eexists. repeat split; reflexivity.
Defined.
